(** * The gimbal stabilizer state machine

    A shallow embedding of [GimbalStabilizer::Impl]
    (hw/gimbal/firmware/gimbal/gimbal_stabilizer.cc): the AHRS sample
    handler, the three state handlers, the millisecond watchdog poll and
    the three-phase output mapping, with the properties its
    specification states about them.

    Conventions.
    - [uint32_t] and [uint16_t] values are integers of [Z]; the
      wrap-around of unsigned arithmetic is written out with [mod].
    - [float] is IEEE 754 binary32: the standard library's [spec_float]
      with a 24 bit significand and [emax = 128], rounding to nearest
      even.
    - The collaborators the stabilizer holds by reference (the enable
      pin, the two PWM channels, the telemetry updater) are fields of
      [World]; every call made on them is also appended to a trace.
    - The clock is read by the entry points, so each entry point takes
      the clock as it stands when it is called. *)

From Stdlib Require Import ZArith List Bool Lia.
From Stdlib Require Import Floats.SpecFloat.
Import ListNotations.

Local Open Scope Z_scope.

(** ** Single precision arithmetic *)

Module F32.

Definition prec : Z := 24.
Definition emax : Z := 128.

Definition float : Type := spec_float.

Definition add : float -> float -> float := SFadd prec emax.
Definition mul : float -> float -> float := SFmul prec emax.
Definition div : float -> float -> float := SFdiv prec emax.

(** [x > y] of C++: false as soon as one side is a NaN. *)
Definition gt (x y : float) : bool := SFltb y x.

(** Conversion of an integer to [float]. *)
Definition of_Z (n : Z) : float := binary_normalize prec emax n 0 false.

Definition zero : float := S754_zero false.
Definition one : float := of_Z 1.

(** The integer part of a finite value, rounding towards zero. *)
Definition trunc (f : float) : option Z :=
  match f with
  | S754_zero _ => Some 0
  | S754_finite s m e => Some (cond_Zopp s (Z.shiftl (Zpos m) e))
  | S754_infinity _ | S754_nan => None
  end.

(** [static_cast] of a [float] to an unsigned type of [bits] bits.  The
    conversion truncates; when the truncated value does not fit the
    standard leaves the behaviour undefined, and the result is then
    some value of the target type, given by [undef]. *)
Definition to_unsigned (undef : float -> Z) (bits : Z) (f : float) : Z :=
  match trunc f with
  | Some z => if (0 <=? z) && (z <? 2 ^ bits) then z
              else undef f mod 2 ^ bits
  | None => undef f mod 2 ^ bits
  end.

End F32.

Definition float : Type := F32.float.

Definition uint32_max : Z := 4294967295.
Definition uint32_modulus : Z := 2 ^ 32.
Definition uint16_modulus : Z := 2 ^ 16.

(** Unsigned 32 bit subtraction. *)
Definition sub32 (a b : Z) : Z := (a - b) mod uint32_modulus.

(** ** Data model *)

(** [enum State]. [kNumStates] is the count sentinel of the enumeration;
    the two dispatchers assert that they never see it. *)
Inductive State : Type :=
| kInitializing
| kOperating
| kFault
| kNumStates.

Definition State_eqb (a b : State) : bool :=
  match a, b with
  | kInitializing, kInitializing | kOperating, kOperating
  | kFault, kFault | kNumStates, kNumStates => true
  | _, _ => false
  end.

Module Euler.
Record t : Type := mk { roll : float; pitch : float; yaw : float }.
End Euler.

Module Point3D.
Record t : Type := mk { x : float; y : float; z : float }.
End Point3D.

(** The sample the AHRS signal delivers. *)
Module AhrsData.
Record t : Type := mk {
  timestamp : Z;
  error : bool;
  euler_deg : Euler.t;
  body_rate_dps : Point3D.t;
  rate_hz : float
}.
End AhrsData.

(** The declaration of [Clock] is not among the sources.  The handlers
    use [timestamp()] as a [uint32_t] and divide by
    [ticks_per_second()]; what such a division computes depends on
    whether the tick rate is an integer or a floating point number, so
    the rate carries that choice. *)
Inductive TickRate : Type :=
| RateInt (n : positive)
| RateFloat (f : float).

Module Clock.
Record t : Type := mk { timestamp : Z; ticks_per_second : TickRate }.
End Clock.

(** [uint32_t / ticks_per_second()] converted to [float]: between two
    integers the division is the integer one and only its quotient is
    converted. *)
Definition div_u32_rate (n : Z) (r : TickRate) : float :=
  match r with
  | RateInt k => F32.of_Z (n / Zpos k)
  | RateFloat f => F32.div (F32.of_Z n) f
  end.

(** [float / ticks_per_second()]. *)
Definition div_float_rate (v : float) (r : TickRate) : float :=
  match r with
  | RateInt k => F32.div v (F32.of_Z (Zpos k))
  | RateFloat f => F32.div v f
  end.

Module ChannelConfig.
Record t (PidConfig : Type) : Type := mk { motor : Z; pid : PidConfig }.
Arguments mk {PidConfig}.
Arguments motor {PidConfig}.
Arguments pid {PidConfig}.
End ChannelConfig.

Module Config.
Record t (PidConfig : Type) : Type := mk {
  initialization_period_s : float;
  watchdog_period_s : float;
  pitch : ChannelConfig.t PidConfig;
  yaw : ChannelConfig.t PidConfig
}.
Arguments mk {PidConfig}.
Arguments initialization_period_s {PidConfig}.
Arguments watchdog_period_s {PidConfig}.
Arguments pitch {PidConfig}.
Arguments yaw {PidConfig}.
End Config.

Module Data.
Record t (PidState : Type) : Type := mk {
  state : State;
  pitch : PidState;
  yaw : PidState;
  start_timestamp : Z;
  desired_deg : Euler.t;
  desired_body_rate_dps : Point3D.t;
  last_ahrs_update : Z;
  torque_on : bool
}.
Arguments mk {PidState}.
Arguments state {PidState}.
Arguments pitch {PidState}.
Arguments yaw {PidState}.
Arguments start_timestamp {PidState}.
Arguments desired_deg {PidState}.
Arguments desired_body_rate_dps {PidState}.
Arguments last_ahrs_update {PidState}.
Arguments torque_on {PidState}.

Section Setters.
Context {PidState : Type}.
Implicit Type d : t PidState.

Definition set_state (v : State) d : t PidState :=
  mk v (pitch d) (yaw d) (start_timestamp d) (desired_deg d)
     (desired_body_rate_dps d) (last_ahrs_update d) (torque_on d).
Definition set_pitch (v : PidState) d : t PidState :=
  mk (state d) v (yaw d) (start_timestamp d) (desired_deg d)
     (desired_body_rate_dps d) (last_ahrs_update d) (torque_on d).
Definition set_yaw (v : PidState) d : t PidState :=
  mk (state d) (pitch d) v (start_timestamp d) (desired_deg d)
     (desired_body_rate_dps d) (last_ahrs_update d) (torque_on d).
Definition set_start_timestamp (v : Z) d : t PidState :=
  mk (state d) (pitch d) (yaw d) v (desired_deg d)
     (desired_body_rate_dps d) (last_ahrs_update d) (torque_on d).
Definition set_desired_deg (v : Euler.t) d : t PidState :=
  mk (state d) (pitch d) (yaw d) (start_timestamp d) v
     (desired_body_rate_dps d) (last_ahrs_update d) (torque_on d).
Definition set_last_ahrs_update (v : Z) d : t PidState :=
  mk (state d) (pitch d) (yaw d) (start_timestamp d) (desired_deg d)
     (desired_body_rate_dps d) v (torque_on d).
Definition set_torque_on (v : bool) d : t PidState :=
  mk (state d) (pitch d) (yaw d) (start_timestamp d) (desired_deg d)
     (desired_body_rate_dps d) (last_ahrs_update d) v.
End Setters.
End Data.

(** The three duty cycles last written to a [BldcPwm] channel. *)
Definition Pwm : Type := (Z * Z * Z)%type.
Definition pwm_off : Pwm := (0, 0, 0).

(** ** What the stabilizer takes from headers that are not among the
    sources

    - [pid.h]: the PID controller, as its configuration and state types
      and its [Apply] method, which returns the command and the
      controller's next state;
    - [std::sin] and [mjmech::base::kPi];
    - [undef]: the result of a float to integer conversion whose value
      does not fit the target type. *)
Class Platform : Type := {
  PidConfig : Type;
  PidState : Type;
  Apply :
    PidConfig -> PidState ->
    float -> float -> float -> float -> float -> float * PidState;
  sin : float -> float;
  kPi : float;
  undef : float -> Z
}.

(** ** The stabilizer *)

Section Stabilizer.

Context {P : Platform}.

(** Calls made on the collaborators, in the order they are made. *)
Inductive Event : Type :=
| EnableSet (on : bool)
| Motor1Set (a b c : Z)
| Motor2Set (a b c : Z)
| DataUpdate (snapshot : Data.t PidState).

(** The stabilizer's fields, with the state of the objects it holds
    references to. *)
Record World : Type := mkWorld {
  config_ : Config.t PidConfig;
  data_ : Data.t PidState;
  motor_enable_ : bool;
  motor1_ : Pwm;
  motor2_ : Pwm;
  trace_ : list Event
}.

(** *** Sequencing

    A member function is a computation over [World] that either
    returns, or stops on a failed assertion. *)
Definition M (A : Type) : Type := World -> option (A * World).

Definition ret {A : Type} (a : A) : M A := fun w => Some (a, w).

Definition bind {A B : Type} (m : M A) (k : A -> M B) : M B :=
  fun w => match m w with
           | Some (a, w') => k a w'
           | None => None
           end.

Definition assert_false {A : Type} : M A := fun _ => None.

Local Notation "x <- m ;; k" := (bind m (fun x => k))
  (at level 61, m at next level, right associativity).
Local Notation "m ;; k" := (bind m (fun _ => k))
  (at level 61, right associativity).

Definition get_data : M (Data.t PidState) := fun w => Some (data_ w, w).
Definition get_config : M (Config.t PidConfig) :=
  fun w => Some (config_ w, w).

Definition update_data (f : Data.t PidState -> Data.t PidState) : M unit :=
  fun w => Some (tt, mkWorld (config_ w) (f (data_ w)) (motor_enable_ w)
                             (motor1_ w) (motor2_ w) (trace_ w)).

(** [motor_enable_.Set(on)] *)
Definition motor_enable_Set (on : bool) : M unit :=
  fun w => Some (tt, mkWorld (config_ w) (data_ w) on
                             (motor1_ w) (motor2_ w)
                             (trace_ w ++ [EnableSet on])).

(** [motor1_.Set(a, b, c)] and [motor2_.Set(a, b, c)] *)
Definition motor1_Set (a b c : Z) : M unit :=
  fun w => Some (tt, mkWorld (config_ w) (data_ w) (motor_enable_ w)
                             (a, b, c) (motor2_ w)
                             (trace_ w ++ [Motor1Set a b c])).

Definition motor2_Set (a b c : Z) : M unit :=
  fun w => Some (tt, mkWorld (config_ w) (data_ w) (motor_enable_ w)
                             (motor1_ w) (a, b, c)
                             (trace_ w ++ [Motor2Set a b c])).

(** [data_updater_()]: telemetry takes a snapshot of [data_]. *)
Definition data_updater_ : M unit :=
  fun w => Some (tt, mkWorld (config_ w) (data_ w) (motor_enable_ w)
                             (motor1_ w) (motor2_ w)
                             (trace_ w ++ [DataUpdate (data_ w)])).

(** *** Channel selection *)

Inductive Motor : Type := Motor1 | Motor2.

Definition Motor_Set (m : Motor) : Z -> Z -> Z -> M unit :=
  match m with
  | Motor1 => motor1_Set
  | Motor2 => motor2_Set
  end.

Definition pitch_motor : M Motor :=
  c <- get_config ;;
  if ChannelConfig.motor (Config.pitch c) =? 1 then ret Motor1
  else if ChannelConfig.motor (Config.pitch c) =? 2 then ret Motor2
  else ret Motor1.

Definition yaw_motor : M Motor :=
  c <- get_config ;;
  if ChannelConfig.motor (Config.yaw c) =? 1 then ret Motor1
  else if ChannelConfig.motor (Config.yaw c) =? 2 then ret Motor2
  else ret Motor2.

(** *** The phase mapping: the capture-free lambda [phase] of
    [DoOperating]. *)
Definition phase (command phase_ : float) : Z :=
  let fresult :=
    F32.mul
      (F32.add
         (sin (F32.mul (F32.mul (F32.add command phase_) (F32.of_Z 2)) kPi))
         F32.one)
      (F32.of_Z 32767) in
  Z.max 0 (Z.min 65535 (F32.to_unsigned undef 32 fresult))
    mod uint16_modulus.

(** *** State handlers *)

Definition DoFault : M unit :=
  update_data (Data.set_state kFault) ;;
  update_data (Data.set_torque_on false) ;;
  motor_enable_Set false ;;
  motor1_Set 0 0 0 ;;
  motor2_Set 0 0 0.

Definition DoInitializing (clock_ : Clock.t) (data : AhrsData.t) : M unit :=
  motor_enable_Set false ;;
  if AhrsData.error data then
    update_data (Data.set_start_timestamp 0)
  else
    d <- get_data ;;
    if Data.start_timestamp d =? 0 then
      update_data (Data.set_start_timestamp (Clock.timestamp clock_))
    else
      let now := Clock.timestamp clock_ in
      let elapsed_s :=
        div_u32_rate (sub32 now (Data.start_timestamp d))
                     (Clock.ticks_per_second clock_) in
      c <- get_config ;;
      if F32.gt elapsed_s (Config.initialization_period_s c) then
        update_data (fun d =>
          Data.set_desired_deg
            (Euler.mk (Euler.roll (Data.desired_deg d)) F32.zero
                      (Euler.yaw (Data.desired_deg d))) d) ;;
        update_data (fun d =>
          Data.set_desired_deg
            (Euler.mk (Euler.roll (Data.desired_deg d))
                      (Euler.pitch (Data.desired_deg d))
                      (Euler.yaw (AhrsData.euler_deg data))) d) ;;
        update_data (Data.set_last_ahrs_update now) ;;
        update_data (Data.set_state kOperating)
      else
        ret tt.

(** [pitch_pid_] and [yaw_pid_] hold pointers into [config_] and
    [data_]: a call reads the gains there and updates the state in
    place. *)
Definition pitch_pid_Apply (measured desired rate desired_rate hz : float)
  : M float :=
  c <- get_config ;;
  d <- get_data ;;
  let '(command, st) :=
    Apply (ChannelConfig.pid (Config.pitch c)) (Data.pitch d)
          measured desired rate desired_rate hz in
  update_data (Data.set_pitch st) ;;
  ret command.

Definition yaw_pid_Apply (measured desired rate desired_rate hz : float)
  : M float :=
  c <- get_config ;;
  d <- get_data ;;
  let '(command, st) :=
    Apply (ChannelConfig.pid (Config.yaw c)) (Data.yaw d)
          measured desired rate desired_rate hz in
  update_data (Data.set_yaw st) ;;
  ret command.

(** The phases are held in [float] locals before they are passed to
    [Set], which takes them as [uint16_t]. *)
Definition Set_floats (m : Motor) (a b c : float) : M unit :=
  Motor_Set m (F32.to_unsigned undef 16 a) (F32.to_unsigned undef 16 b)
            (F32.to_unsigned undef 16 c).

Definition DoOperating (data : AhrsData.t) : M unit :=
  if AhrsData.error data then
    DoFault
  else
    update_data (Data.set_last_ahrs_update (AhrsData.timestamp data)) ;;
    d <- get_data ;;
    motor_enable_Set (Data.torque_on d) ;;
    pitch_command <-
      pitch_pid_Apply (Euler.pitch (AhrsData.euler_deg data))
                      (Euler.pitch (Data.desired_deg d))
                      (Point3D.x (AhrsData.body_rate_dps data))
                      (Point3D.x (Data.desired_body_rate_dps d))
                      (AhrsData.rate_hz data) ;;
    yaw_command <-
      yaw_pid_Apply (Euler.yaw (AhrsData.euler_deg data))
                    (Euler.yaw (Data.desired_deg d))
                    (Point3D.z (AhrsData.body_rate_dps data))
                    (Point3D.z (Data.desired_body_rate_dps d))
                    (AhrsData.rate_hz data) ;;
    let third := F32.div F32.one (F32.of_Z 3) in
    let two_thirds := F32.div (F32.of_Z 2) (F32.of_Z 3) in
    let pitch1 := F32.of_Z (phase pitch_command F32.zero) in
    let pitch2 := F32.of_Z (phase pitch_command third) in
    let pitch3 := F32.of_Z (phase pitch_command two_thirds) in
    let yaw1 := F32.of_Z (phase yaw_command F32.zero) in
    let yaw2 := F32.of_Z (phase yaw_command third) in
    let yaw3 := F32.of_Z (phase yaw_command two_thirds) in
    pm <- pitch_motor ;;
    Set_floats pm pitch1 pitch2 pitch3 ;;
    ym <- yaw_motor ;;
    Set_floats ym yaw1 yaw2 yaw3.

(** *** Entry points *)

(** The [switch] of [HandleAhrs]. *)
Definition dispatch (clock_ : Clock.t) (data : AhrsData.t) : M unit :=
  d <- get_data ;;
  match Data.state d with
  | kInitializing => DoInitializing clock_ data
  | kOperating => DoOperating data
  | kFault => DoFault
  | kNumStates => assert_false
  end.

Definition HandleAhrs (clock_ : Clock.t) (data : AhrsData.t) : M unit :=
  dispatch clock_ data ;;
  data_updater_.

Definition PollMillisecond (clock_ : Clock.t) : M unit :=
  d <- get_data ;;
  match Data.state d with
  | kOperating =>
      let elapsed_s :=
        div_float_rate
          (F32.of_Z (sub32 (Clock.timestamp clock_)
                           (Data.last_ahrs_update d)))
          (Clock.ticks_per_second clock_) in
      c <- get_config ;;
      if F32.gt elapsed_s (Config.watchdog_period_s c) then DoFault
      else ret tt
  | kInitializing | kFault => ret tt
  | kNumStates => assert_false
  end.

(** The world a computation leaves behind. *)
Definition exec (m : M unit) (w : World) : option World :=
  match m w with
  | Some (_, w') => Some w'
  | None => None
  end.

(** The stabilizer is driven through its two entry points only. *)
Inductive Call : Type :=
| OnAhrs (clock_ : Clock.t) (data : AhrsData.t)
| OnMillisecond (clock_ : Clock.t).

Definition call (c : Call) : M unit :=
  match c with
  | OnAhrs clock_ data => HandleAhrs clock_ data
  | OnMillisecond clock_ => PollMillisecond clock_
  end.

Fixpoint calls (cs : list Call) (w : World) : option World :=
  match cs with
  | [] => Some w
  | c :: cs' =>
      match exec (call c) w with
      | Some w' => calls cs' w'
      | None => None
      end
  end.

End Stabilizer.

(** ** Exact arithmetic on the watchdog period *)

(** The tick rate as the [float] the watchdog divides by. *)
Definition rate_float (r : TickRate) : float :=
  match r with
  | RateInt k => F32.of_Z (Zpos k)
  | RateFloat f => f
  end.

(** [m1 * 2^e1 <= m2 * 2^e2], on integers. *)
Definition scaled_leb (m1 e1 m2 e2 : Z) : bool :=
  m1 * 2 ^ (e1 - Z.min e1 e2) <=? m2 * 2 ^ (e2 - Z.min e1 e2).

(** The watchdog period [W] in ticks of rate [t], computed exactly: for
    positive [W = mW * 2^eW] and [t = mt * 2^et] the product is
    [(mW * mt) * 2^(eW + et)].  [period_at_most W t n] says it is at
    most [n] ticks, [period_at_least W t n] that it is at least [n]. *)
Definition period_at_most (W t : float) (n : Z) : bool :=
  match W, t with
  | S754_finite false mW eW, S754_finite false mt et =>
      scaled_leb (Zpos mW * Zpos mt) (eW + et) n 0
  | _, _ => false
  end.

Definition period_at_least (W t : float) (n : Z) : bool :=
  match W, t with
  | S754_finite false mW eW, S754_finite false mt et =>
      scaled_leb n 0 (Zpos mW * Zpos mt) (eW + et)
  | _, _ => false
  end.

(** The period is the whole number [n] of ticks. *)
Definition whole_ticks (W t : float) (n : Z) : bool :=
  period_at_most W t n && period_at_least W t n.

(** A positive normal number between [2^-102] and [2^126]. *)
Definition normal_rate (t : float) : bool :=
  match t with
  | S754_finite false m e =>
      (Zpos (digits2_pos m) =? 24) && (-125 <=? e) && (e <=? 102)
  | _ => false
  end.

(** ** The arming period in ticks *)




(** ** Checking a range of integers by evaluation *)

(** [test] holds of the [count] integers from [n] on. *)
Fixpoint holds_from (test : Z -> bool) (count : nat) (n : Z) : bool :=
  match count with
  | O => true
  | S count' => test n && holds_from test count' (n + 1)
  end.

(** The integer [n] is unchanged by a conversion to [float] and back. *)
Definition survives_float (n : Z) : bool :=
  match F32.trunc (F32.of_Z n) with
  | Some z => z =? n
  | None => false
  end.

(** ** Vocabulary of the properties *)

Section Vocabulary.

Context {P : Platform}.

(** Both channels at zero duty and the enable line low. *)
Definition outputs_off (w : World) : Prop :=
  motor_enable_ w = false /\ motor1_ w = pwm_off /\ motor2_ w = pwm_off.

(** A call that de-energises, or does not touch, the actuators. *)
Definition quiet (e : Event) : Prop :=
  match e with
  | EnableSet on => on = false
  | Motor1Set a b c | Motor2Set a b c => (a, b, c) = pwm_off
  | DataUpdate _ => True
  end.

Definition is_MotorSet (e : Event) : bool :=
  match e with
  | Motor1Set _ _ _ | Motor2Set _ _ _ => true
  | _ => false
  end.

Definition is_DataUpdate (e : Event) : bool :=
  match e with
  | DataUpdate _ => true
  | _ => false
  end.

(** The stabilizer once constructed.  [start_timestamp],
    [last_ahrs_update] and [torque_on] have default member
    initializers.  [state] has none in the source; it starts as the
    first enumerator, which the specification names as the initial
    state.  Nothing has been called on the collaborators yet, and the
    actuators are de-energised. *)
Definition initial (w : World) : Prop :=
  Data.state (data_ w) = kInitializing /\
  Data.start_timestamp (data_ w) = 0 /\
  Data.last_ahrs_update (data_ w) = 0 /\
  Data.torque_on (data_ w) = false /\
  outputs_off w /\
  trace_ w = [].

(** The worlds the two entry points can lead to. *)
Inductive reachable : World -> Prop :=
| reachable_initial w : initial w -> reachable w
| reachable_call w c w' :
    reachable w -> exec (call c) w = Some w' -> reachable w'.

(** The test of [DoInitializing] that arms the stabilizer. *)
Definition init_elapsed (clock_ : Clock.t) (w : World) : bool :=
  F32.gt
    (div_u32_rate
       (sub32 (Clock.timestamp clock_) (Data.start_timestamp (data_ w)))
       (Clock.ticks_per_second clock_))
    (Config.initialization_period_s (config_ w)).

(** The test of [PollMillisecond] that trips the watchdog. *)
Definition watchdog_elapsed (clock_ : Clock.t) (w : World) : bool :=
  F32.gt
    (div_float_rate
       (F32.of_Z (sub32 (Clock.timestamp clock_)
                        (Data.last_ahrs_update (data_ w))))
       (Clock.ticks_per_second clock_))
    (Config.watchdog_period_s (config_ w)).

(** The world [DoFault] leaves behind. *)
Definition faulted (w : World) : World :=
  mkWorld (config_ w)
          (Data.set_torque_on false (Data.set_state kFault (data_ w)))
          false pwm_off pwm_off
          (trace_ w ++ [EnableSet false; Motor1Set 0 0 0; Motor2Set 0 0 0]).

(** The world an Initializing sample leaves when it does not arm:
    enable low, the timer set to [t]. *)
Definition timer_set (t : Z) (w : World) : World :=
  let d := Data.set_start_timestamp t (data_ w) in
  mkWorld (config_ w) d false (motor1_ w) (motor2_ w)
          (trace_ w ++ [EnableSet false; DataUpdate d]).

(** The data of the sample that arms. *)
Definition armed (clock_ : Clock.t) (data : AhrsData.t) (d : Data.t PidState)
  : Data.t PidState :=
  Data.mk kOperating (Data.pitch d) (Data.yaw d) (Data.start_timestamp d)
          (Euler.mk (Euler.roll (Data.desired_deg d)) F32.zero
                    (Euler.yaw (AhrsData.euler_deg data)))
          (Data.desired_body_rate_dps d)
          (Clock.timestamp clock_) (Data.torque_on d).

Definition armed_world (clock_ : Clock.t) (data : AhrsData.t) (w : World)
  : World :=
  let d := armed clock_ data (data_ w) in
  mkWorld (config_ w) d false (motor1_ w) (motor2_ w)
          (trace_ w ++ [EnableSet false; DataUpdate d]).

(** The world [data_updater_] leaves behind. *)
Definition published (w : World) : World :=
  mkWorld (config_ w) (data_ w) (motor_enable_ w) (motor1_ w) (motor2_ w)
          (trace_ w ++ [DataUpdate (data_ w)]).

(** The paths through the two entry points, one constructor for each:
    [transition c w w'] when call [c] made in world [w] follows that
    path and leaves [w']. *)
Inductive transition : Call -> World -> World -> Prop :=
| poll_idle clock_ w :
    Data.state (data_ w) = kInitializing \/ Data.state (data_ w) = kFault ->
    transition (OnMillisecond clock_) w w
| poll_fresh clock_ w :
    Data.state (data_ w) = kOperating ->
    watchdog_elapsed clock_ w = false ->
    transition (OnMillisecond clock_) w w
| poll_stale clock_ w :
    Data.state (data_ w) = kOperating ->
    watchdog_elapsed clock_ w = true ->
    transition (OnMillisecond clock_) w (faulted w)
| sample_in_fault clock_ data w :
    Data.state (data_ w) = kFault ->
    transition (OnAhrs clock_ data) w (published (faulted w))
| sample_error_operating clock_ data w :
    Data.state (data_ w) = kOperating ->
    AhrsData.error data = true ->
    transition (OnAhrs clock_ data) w (published (faulted w))
| sample_accepted clock_ data w w' e1 e2 :
    Data.state (data_ w) = kOperating ->
    AhrsData.error data = false ->
    config_ w' = config_ w ->
    Data.state (data_ w') = kOperating ->
    Data.last_ahrs_update (data_ w') = AhrsData.timestamp data ->
    Data.start_timestamp (data_ w') = Data.start_timestamp (data_ w) ->
    Data.torque_on (data_ w') = Data.torque_on (data_ w) ->
    motor_enable_ w' = Data.torque_on (data_ w) ->
    is_MotorSet e1 = true -> is_MotorSet e2 = true ->
    trace_ w' =
    trace_ w ++ [EnableSet (Data.torque_on (data_ w)); e1; e2;
                 DataUpdate (data_ w')] ->
    transition (OnAhrs clock_ data) w w'
| sample_error_initializing clock_ data w :
    Data.state (data_ w) = kInitializing ->
    AhrsData.error data = true ->
    transition (OnAhrs clock_ data) w (timer_set 0 w)
| sample_starts_timer clock_ data w :
    Data.state (data_ w) = kInitializing ->
    AhrsData.error data = false ->
    Data.start_timestamp (data_ w) = 0 ->
    transition (OnAhrs clock_ data) w
               (timer_set (Clock.timestamp clock_) w)
| sample_waits clock_ data w :
    Data.state (data_ w) = kInitializing ->
    AhrsData.error data = false ->
    Data.start_timestamp (data_ w) <> 0 ->
    init_elapsed clock_ w = false ->
    transition (OnAhrs clock_ data) w
               (timer_set (Data.start_timestamp (data_ w)) w)
| sample_arms clock_ data w :
    Data.state (data_ w) = kInitializing ->
    AhrsData.error data = false ->
    Data.start_timestamp (data_ w) <> 0 ->
    init_elapsed clock_ w = true ->
    transition (OnAhrs clock_ data) w (armed_world clock_ data w).

End Vocabulary.

(** ** Outcomes of an accepted sample *)

Section Outcomes.

Context {P : Platform}.

(** The duty cycles a channel holds. *)
Definition channel (m : Motor) (w : World) : Pwm :=
  match m with
  | Motor1 => motor1_ w
  | Motor2 => motor2_ w
  end.

Definition other (m : Motor) : Motor :=
  match m with
  | Motor1 => Motor2
  | Motor2 => Motor1
  end.

(** The three phases [DoOperating] computes from one command, at
    offsets 0, 1/3 and 2/3 of a turn. *)
Definition phases (command : float) : Pwm :=
  (phase command F32.zero,
   phase command (F32.div F32.one (F32.of_Z 3)),
   phase command (F32.div (F32.of_Z 2) (F32.of_Z 3))).

(** What the two [Apply] calls of [DoOperating] return: the command and
    the next controller state. *)
Definition pitch_Apply_result (data : AhrsData.t) (w : World)
  : float * PidState :=
  Apply (ChannelConfig.pid (Config.pitch (config_ w))) (Data.pitch (data_ w))
        (Euler.pitch (AhrsData.euler_deg data))
        (Euler.pitch (Data.desired_deg (data_ w)))
        (Point3D.x (AhrsData.body_rate_dps data))
        (Point3D.x (Data.desired_body_rate_dps (data_ w)))
        (AhrsData.rate_hz data).

Definition yaw_Apply_result (data : AhrsData.t) (w : World)
  : float * PidState :=
  Apply (ChannelConfig.pid (Config.yaw (config_ w))) (Data.yaw (data_ w))
        (Euler.yaw (AhrsData.euler_deg data))
        (Euler.yaw (Data.desired_deg (data_ w)))
        (Point3D.z (AhrsData.body_rate_dps data))
        (Point3D.z (Data.desired_body_rate_dps (data_ w)))
        (AhrsData.rate_hz data).

(** The data an accepted sample leaves. *)
Definition accepted_data (data : AhrsData.t) (w : World) : Data.t PidState :=
  Data.mk kOperating
          (snd (pitch_Apply_result data w)) (snd (yaw_Apply_result data w))
          (Data.start_timestamp (data_ w)) (Data.desired_deg (data_ w))
          (Data.desired_body_rate_dps (data_ w))
          (AhrsData.timestamp data) (Data.torque_on (data_ w)).

(** [Set] on channel [m], as a world and as the call it leaves in the
    trace. *)
Definition SetEvent (m : Motor) (p : Pwm) : Event :=
  match m, p with
  | Motor1, (a, b, c) => Motor1Set a b c
  | Motor2, (a, b, c) => Motor2Set a b c
  end.

Definition drive (m : Motor) (p : Pwm) (w : World) : World :=
  match m with
  | Motor1 => mkWorld (config_ w) (data_ w) (motor_enable_ w)
                      p (motor2_ w) (trace_ w ++ [SetEvent m p])
  | Motor2 => mkWorld (config_ w) (data_ w) (motor_enable_ w)
                      (motor1_ w) p (trace_ w ++ [SetEvent m p])
  end.

(** The world an accepted sample leaves when pitch drives channel [pm]
    and yaw drives channel [ym]. *)
Definition accepted_world (pm ym : Motor) (data : AhrsData.t) (w : World)
  : World :=
  published
    (drive ym (phases (fst (yaw_Apply_result data w)))
       (drive pm (phases (fst (pitch_Apply_result data w)))
          (mkWorld (config_ w) (accepted_data data w)
                   (Data.torque_on (data_ w)) (motor1_ w) (motor2_ w)
                   (trace_ w ++ [EnableSet (Data.torque_on (data_ w))])))).

(** A motor write whose three duty cycles fit 16 bits. *)
Definition uint16_write (e : Event) : Prop :=
  match e with
  | Motor1Set a b c | Motor2Set a b c =>
      0 <= a <= 65535 /\ 0 <= b <= 65535 /\ 0 <= c <= 65535
  | _ => True
  end.

Definition is_OnAhrs (c : Call) : bool :=
  match c with
  | OnAhrs _ _ => true
  | OnMillisecond _ => false
  end.

(** World [w] with the two stored timestamps replaced. *)
Definition with_timestamps (start last : Z) (w : World) : World :=
  mkWorld (config_ w)
          (Data.set_last_ahrs_update last
             (Data.set_start_timestamp start (data_ w)))
          (motor_enable_ w) (motor1_ w) (motor2_ w) (trace_ w).

(** Addition of tick counts, as the 32 bit counter does it. *)
Definition add32 (a b : Z) : Z := (a + b) mod uint32_modulus.

End Outcomes.

(** ** A test bench

    A platform and a few worlds to run the stabilizer on: a proportional
    controller that counts its calls, a square wave in place of the
    sine, and conversions that saturate to zero. *)

Module Bench.

Definition square_wave (x : float) : float :=
  match x with
  | S754_finite true _ _ => SFopp F32.one
  | _ => F32.one
  end.

#[export] Instance platform : Platform := {|
  PidConfig := float;
  PidState := Z;
  Apply := fun kp calls measured desired _ _ _ =>
             (F32.mul kp (F32.add desired (SFopp measured)), calls + 1);
  sin := square_wave;
  kPi := S754_finite false 13176795 (-22);
  undef := fun _ => 0
|}.

Definition tenth : float := F32.div F32.one (F32.of_Z 10).

(** The defaults of [Config]: one second to arm, a tenth of a second
    of watchdog, pitch on motor 1 and yaw on motor 2. *)
Definition config : Config.t float :=
  Config.mk F32.one tenth
            (ChannelConfig.mk 1 F32.one) (ChannelConfig.mk 2 F32.one).

Definition level : Euler.t := Euler.mk F32.zero F32.zero F32.zero.
Definition still : Point3D.t := Point3D.mk F32.zero F32.zero F32.zero.

Definition data0 : Data.t Z :=
  Data.mk kInitializing 0 0 0 level still 0 false.

Definition world0 : World :=
  mkWorld config data0 false pwm_off pwm_off [].

(** Ten thousand ticks to the second. *)
Definition clock (now : Z) : Clock.t := Clock.mk now (RateInt 10000).

Definition heading : Euler.t := Euler.mk F32.zero F32.zero (F32.of_Z 45).

Definition sample (now : Z) (err : bool) : AhrsData.t :=
  AhrsData.mk now err heading still (F32.of_Z 100).

(** A first sample at tick 5 starts the timer; the sample at tick
    20005 arms. *)
Definition arming : list Call :=
  [OnAhrs (clock 5) (sample 5 false);
   OnAhrs (clock 20005) (sample 20005 false)].

Definition timing : World :=
  mkWorld config (Data.set_start_timestamp 5 data0)
          false pwm_off pwm_off [].


Definition operating : World :=
  mkWorld config
          (Data.mk kOperating 0 0 5 heading still 20005 false)
          false pwm_off pwm_off [].

Definition in_fault : World := faulted operating.

Definition eighth : float := F32.div F32.one (F32.of_Z 8).

(** Operating with a watchdog of an eighth of a second, 1250 ticks, the
    last sample taken shortly before the tick counter wraps around. *)
Definition short_watch : World :=
  mkWorld (Config.mk F32.one eighth
                     (ChannelConfig.mk 1 F32.one) (ChannelConfig.mk 2 F32.one))
          (Data.mk kOperating 0 0 5 heading still 4294967000 false)
          false pwm_off pwm_off [].

(** Operating with a watchdog of [period] seconds. *)
Definition watching (period : Z) : World :=
  mkWorld (Config.mk F32.one (F32.of_Z period)
                     (ChannelConfig.mk 1 F32.one) (ChannelConfig.mk 2 F32.one))
          (Data.mk kOperating 0 0 5 heading still 20005 false)
          false pwm_off pwm_off [].

(** Operating with a watchdog of 2048 seconds: at 8192 ticks to the
    second, [2^24] ticks. *)
Definition long_watch : World := watching 2048.

(** Operating with pitch and yaw both configured on motor 1. *)
Definition shared : World :=
  mkWorld (Config.mk F32.one tenth
                     (ChannelConfig.mk 1 F32.one) (ChannelConfig.mk 1 F32.one))
          (Data.mk kOperating 0 0 5 heading still 20005 false)
          false pwm_off pwm_off [].

(** Operating with a watchdog period that is not a number. *)
Definition blind : World :=
  mkWorld (Config.mk F32.one S754_nan
                     (ChannelConfig.mk 1 F32.one) (ChannelConfig.mk 2 F32.one))
          (Data.mk kOperating 0 0 5 heading still 20005 false)
          false pwm_off pwm_off [].

(** A run through the three states: arming, an accepted sample, a poll
    in time and a poll too late. *)
Definition run : list Call :=
  arming ++
  [OnAhrs (clock 20105) (sample 20105 false);
   OnMillisecond (clock 20200);
   OnMillisecond (clock 30000)].

End Bench.

(** ** Properties *)

Section Properties.

Context {P : Platform}.

Implicit Types (w : World) (c : Call) (data : AhrsData.t).

(** Unfolds the member functions down to the world they build. *)
Ltac member_functions :=
  cbv [exec call HandleAhrs PollMillisecond dispatch DoInitializing
       DoOperating DoFault pitch_pid_Apply yaw_pid_Apply Set_floats
       Motor_Set pitch_motor yaw_motor motor_enable_Set motor1_Set
       motor2_Set data_updater_ update_data get_data get_config
       bind ret assert_false];
  cbn [config_ data_ motor_enable_ motor1_ motor2_ trace_].

(** The arithmetic stays folded while the control flow is followed. *)
Local Opaque F32.gt F32.of_Z F32.to_unsigned div_u32_rate div_float_rate
      sub32 phase Z.eqb.

(** *** The handlers, state by state *)

Lemma DoFault_faulted w : DoFault w = Some (tt, faulted w).
Proof.
  member_functions. unfold faulted. simpl.
  now rewrite <- !app_assoc.
Qed.

Lemma HandleAhrs_in_fault (clock_ : Clock.t) data w :
  Data.state (data_ w) = kFault ->
  exec (HandleAhrs clock_ data) w = Some (published (faulted w)).
Proof.
  intros Hs. unfold exec, HandleAhrs, dispatch, bind, get_data.
  rewrite Hs, DoFault_faulted. reflexivity.
Qed.

Lemma HandleAhrs_operating_error (clock_ : Clock.t) data w :
  Data.state (data_ w) = kOperating ->
  AhrsData.error data = true ->
  exec (HandleAhrs clock_ data) w = Some (published (faulted w)).
Proof.
  intros Hs He.
  unfold exec, HandleAhrs, dispatch, bind, get_data, DoOperating.
  rewrite Hs, He, DoFault_faulted. reflexivity.
Qed.

Lemma HandleAhrs_initializing_error (clock_ : Clock.t) data w :
  Data.state (data_ w) = kInitializing ->
  AhrsData.error data = true ->
  exec (HandleAhrs clock_ data) w = Some (timer_set 0 w).
Proof.
  intros Hs He. member_functions. rewrite Hs, He. simpl.
  unfold timer_set. now rewrite <- app_assoc.
Qed.

Lemma HandleAhrs_initializing_start (clock_ : Clock.t) data w :
  Data.state (data_ w) = kInitializing ->
  AhrsData.error data = false ->
  Data.start_timestamp (data_ w) = 0 ->
  exec (HandleAhrs clock_ data) w =
  Some (timer_set (Clock.timestamp clock_) w).
Proof.
  intros Hs He Ht. member_functions. rewrite Hs, He. cbn.
  apply Z.eqb_eq in Ht. rewrite Ht. cbn. unfold timer_set. now rewrite <- app_assoc.
Qed.

Lemma set_start_timestamp_same (d : Data.t PidState) :
  Data.set_start_timestamp (Data.start_timestamp d) d = d.
Proof. now destruct d. Qed.

Lemma HandleAhrs_initializing_wait (clock_ : Clock.t) data w :
  Data.state (data_ w) = kInitializing ->
  AhrsData.error data = false ->
  Data.start_timestamp (data_ w) <> 0 ->
  init_elapsed clock_ w = false ->
  exec (HandleAhrs clock_ data) w =
  Some (timer_set (Data.start_timestamp (data_ w)) w).
Proof.
  intros Hs He Ht Hel. member_functions. rewrite Hs, He. cbn.
  apply Z.eqb_neq in Ht. rewrite Ht. cbn.
  unfold init_elapsed in Hel. rewrite Hel. cbn.
  unfold timer_set. rewrite set_start_timestamp_same.
  now rewrite <- app_assoc.
Qed.

Lemma HandleAhrs_initializing_arm (clock_ : Clock.t) data w :
  Data.state (data_ w) = kInitializing ->
  AhrsData.error data = false ->
  Data.start_timestamp (data_ w) <> 0 ->
  init_elapsed clock_ w = true ->
  exec (HandleAhrs clock_ data) w = Some (armed_world clock_ data w).
Proof.
  intros Hs He Ht Hel. member_functions. rewrite Hs, He. cbn.
  apply Z.eqb_neq in Ht. rewrite Ht. cbn.
  unfold init_elapsed in Hel. rewrite Hel. cbn.
  unfold armed_world, armed. now rewrite <- app_assoc.
Qed.

Lemma PollMillisecond_idle (clock_ : Clock.t) w :
  Data.state (data_ w) = kInitializing \/ Data.state (data_ w) = kFault ->
  exec (PollMillisecond clock_) w = Some w.
Proof.
  intros [Hs | Hs]; member_functions; now rewrite Hs.
Qed.

Lemma PollMillisecond_operating (clock_ : Clock.t) w :
  Data.state (data_ w) = kOperating ->
  exec (PollMillisecond clock_) w =
  Some (if watchdog_elapsed clock_ w then faulted w else w).
Proof.
  intros Hs. unfold exec, PollMillisecond, bind, get_data, get_config.
  rewrite Hs. fold (watchdog_elapsed clock_ w).
  destruct (watchdog_elapsed clock_ w).
  - now rewrite DoFault_faulted.
  - reflexivity.
Qed.

(** An accepted sample while Operating: what it leaves of the fields
    the properties below are about, and the calls it makes. *)
Lemma HandleAhrs_operating_accept (clock_ : Clock.t) data w :
  Data.state (data_ w) = kOperating ->
  AhrsData.error data = false ->
  exists w' e1 e2,
    exec (HandleAhrs clock_ data) w = Some w' /\
    config_ w' = config_ w /\
    Data.state (data_ w') = kOperating /\
    Data.last_ahrs_update (data_ w') = AhrsData.timestamp data /\
    Data.start_timestamp (data_ w') = Data.start_timestamp (data_ w) /\
    Data.torque_on (data_ w') = Data.torque_on (data_ w) /\
    motor_enable_ w' = Data.torque_on (data_ w) /\
    is_MotorSet e1 = true /\ is_MotorSet e2 = true /\
    trace_ w' =
    trace_ w ++ [EnableSet (Data.torque_on (data_ w)); e1; e2;
                 DataUpdate (data_ w')].
Proof.
  intros Hs He. member_functions. rewrite Hs, He. cbn.
  destruct (Apply _ _ _ _ _ _ _) as [pitch_command pitch_state]. cbn.
  destruct (Apply _ _ _ _ _ _ _) as [yaw_command yaw_state]. cbn.
  repeat match goal with
         | |- context [if ?b then _ else _] => destruct b; cbn
         end;
    rewrite <- !app_assoc; cbn;
    do 3 eexists; repeat split; cbn; solve [reflexivity | assumption].
Qed.

(** *** The entry points follow the paths of [transition] *)

Lemma call_total c w :
  Data.state (data_ w) <> kNumStates ->
  exists w', exec (call c) w = Some w' /\ transition c w w'.
Proof.
  intros Hn. destruct c as [clock_ data | clock_]; cbn [call].
  - destruct (Data.state (data_ w)) eqn:Hs; [| | | congruence].
    + destruct (AhrsData.error data) eqn:He.
      * eexists; split;
          [now apply HandleAhrs_initializing_error | now constructor].
      * destruct (Z.eq_dec (Data.start_timestamp (data_ w)) 0) as [Ht | Ht].
        -- eexists; split;
             [now apply HandleAhrs_initializing_start | now constructor].
        -- destruct (init_elapsed clock_ w) eqn:Hel.
           ++ eexists; split;
                [now apply HandleAhrs_initializing_arm | now constructor].
           ++ eexists; split;
                [now apply HandleAhrs_initializing_wait | now constructor].
    + destruct (AhrsData.error data) eqn:He.
      * eexists; split;
          [now apply HandleAhrs_operating_error | now constructor].
      * destruct (HandleAhrs_operating_accept clock_ data w Hs He)
          as (w' & e1 & e2 & Hx & H1 & H2 & H3 & H4 & H5 & H6 & H7 & H8 & H9).
        exists w'. split; [exact Hx |].
        now apply sample_accepted with e1 e2.
    + eexists; split; [now apply HandleAhrs_in_fault | now constructor].
  - destruct (Data.state (data_ w)) eqn:Hs; [| | | congruence].
    + exists w. split; [apply PollMillisecond_idle; auto |].
      constructor; auto.
    + rewrite (PollMillisecond_operating _ _ Hs).
      destruct (watchdog_elapsed clock_ w) eqn:Hw;
        eexists; (split; [reflexivity |]).
      * now apply poll_stale.
      * now apply poll_fresh.
    + exists w. split; [apply PollMillisecond_idle; auto |].
      constructor; auto.
Qed.

Lemma call_asserts c w :
  Data.state (data_ w) = kNumStates -> exec (call c) w = None.
Proof.
  intros Hs. destruct c; member_functions; now rewrite Hs.
Qed.

Lemma call_transition c w w' :
  exec (call c) w = Some w' -> transition c w w'.
Proof.
  intros Hx.
  destruct (Data.state (data_ w)) eqn:Hs;
    try (rewrite call_asserts in Hx by assumption; discriminate);
    (destruct (call_total c w) as (w1 & Hx1 & Ht); [congruence |];
     rewrite Hx in Hx1; injection Hx1 as ->; exact Ht).
Qed.

Lemma HandleAhrs_published (clock_ : Clock.t) data w :
  exec (HandleAhrs clock_ data) w =
  option_map published (exec (dispatch clock_ data) w).
Proof.
  unfold exec, HandleAhrs, bind.
  destruct (dispatch clock_ data w) as [[[] w1] |]; reflexivity.
Qed.

(** *** What holds of every reachable world *)

Lemma outputs_off_faulted w : outputs_off (faulted w).
Proof. repeat split. Qed.

Lemma outputs_off_timer_set t w : outputs_off w -> outputs_off (timer_set t w).
Proof. intros (_ & H1 & H2). repeat split; assumption. Qed.

Lemma transition_keeps_off c w w' :
  transition c w w' ->
  (Data.state (data_ w) <> kOperating -> outputs_off w) ->
  Data.state (data_ w') <> kOperating -> outputs_off w'.
Proof.
  intros Ht Hoff Hs'.
  destruct Ht; cbn in *;
    try solve [ auto | congruence | repeat split
              | apply outputs_off_timer_set; apply Hoff; congruence ].
Qed.

Lemma transition_state c w w' :
  transition c w w' -> Data.state (data_ w') <> kNumStates.
Proof.
  intros Ht; destruct Ht; cbn; try congruence.
  destruct H; congruence.
Qed.

Lemma reachable_sound w :
  reachable w ->
  Data.state (data_ w) <> kNumStates /\
  (Data.state (data_ w) <> kOperating -> outputs_off w).
Proof.
  induction 1 as [w (Hs & _ & _ & _ & Hoff & _) | w c w' _ [_ IH] Hx].
  - split; [congruence | auto].
  - apply call_transition in Hx. split.
    + now apply transition_state with c w.
    + now apply transition_keeps_off with c w.
Qed.

(** *** The claims on the state machine *)

(** C1.  In every reachable world whose state is not Operating, a call
    of either entry point returns, leaves both channels at zero and
    the enable line low, and every call it makes on the actuators
    writes zero phases or sets enable to false. *)
Theorem non_operating_outputs_off w c :
  reachable w ->
  Data.state (data_ w) <> kOperating ->
  exists w' evs,
    exec (call c) w = Some w' /\
    outputs_off w' /\
    trace_ w' = trace_ w ++ evs /\
    Forall quiet evs.
Proof.
  intros Hr Hs. destruct (reachable_sound w Hr) as [Hn Hoff].
  specialize (Hoff Hs).
  destruct (call_total c w Hn) as (w' & Hx & Ht).
  exists w'. destruct Ht; try congruence.
  - exists []. rewrite app_nil_r. auto.
  - eexists. split; [eassumption |]. split; [repeat split |].
    cbn. rewrite <- app_assoc. split; [reflexivity |].
    repeat constructor.
  - eexists. split; [eassumption |].
    split; [now apply outputs_off_timer_set |].
    split; [reflexivity |]. repeat constructor.
  - eexists. split; [eassumption |].
    split; [now apply outputs_off_timer_set |].
    split; [reflexivity |]. repeat constructor.
  - eexists. split; [eassumption |].
    split; [now apply outputs_off_timer_set |].
    split; [reflexivity |]. repeat constructor.
  - eexists. split; [eassumption |].
    split; [destruct Hoff as (_ & Hm1 & Hm2); repeat split; assumption |].
    split; [reflexivity |]. repeat constructor.
Qed.

(** C2.  A sample with the error flag, handled while Operating, moves
    the state to Fault, clears [torque_on], sets the enable line
    false and writes [Set(0, 0, 0)] to both motor channels. *)
Theorem operating_error_faults (clock_ : Clock.t) data w :
  Data.state (data_ w) = kOperating ->
  AhrsData.error data = true ->
  exists w',
    exec (HandleAhrs clock_ data) w = Some w' /\
    Data.state (data_ w') = kFault /\
    Data.torque_on (data_ w') = false /\
    motor_enable_ w' = false /\
    motor1_ w' = (0, 0, 0) /\
    motor2_ w' = (0, 0, 0) /\
    trace_ w' =
    trace_ w ++ [EnableSet false; Motor1Set 0 0 0; Motor2Set 0 0 0;
                 DataUpdate (data_ w')].
Proof.
  intros Hs He. exists (published (faulted w)).
  split; [now apply HandleAhrs_operating_error |].
  cbn. rewrite <- app_assoc. repeat split.
Qed.

(** C5.  Along any sequence of samples with the error flag, delivered
    while Initializing, the state stays Initializing and
    [start_timestamp] is 0 after each of them; the valid sample that
    follows only starts the timer again, at the tick it is handled. *)
Theorem error_samples_reset_timer
        (samples : list (Clock.t * AhrsData.t)) w :
  Data.state (data_ w) = kInitializing ->
  samples <> [] ->
  Forall (fun s => AhrsData.error (snd s) = true) samples ->
  exists w',
    calls (map (fun s => OnAhrs (fst s) (snd s)) samples) w = Some w' /\
    Data.state (data_ w') = kInitializing /\
    Data.start_timestamp (data_ w') = 0 /\
    forall (clock_ : Clock.t) data,
      AhrsData.error data = false ->
      exists w'',
        exec (HandleAhrs clock_ data) w' = Some w'' /\
        Data.state (data_ w'') = kInitializing /\
        Data.start_timestamp (data_ w'') = Clock.timestamp clock_.
Proof.
  intros Hs Hne Herr. revert w Hs.
  induction samples as [| [clock1 data1] rest IH]; [congruence |].
  intros w Hs. inversion Herr as [| ? ? He Hrest]; subst. cbn in He.
  cbn [map calls fst snd call].
  rewrite (HandleAhrs_initializing_error clock1 data1 w Hs He).
  destruct rest as [| s rest'].
  - exists (timer_set 0 w). cbn [map calls].
    split; [reflexivity |]. split; [exact Hs |]. split; [reflexivity |].
    intros clock_ data Hok.
    exists (timer_set (Clock.timestamp clock_) (timer_set 0 w)).
    split; [| split; [exact Hs | reflexivity]].
    now apply HandleAhrs_initializing_start.
  - apply IH; [discriminate | assumption | exact Hs].
Qed.

(** C6.  Polling the watchdog any number of times, at any clock
    values, while the state is Fault or Initializing leaves the whole
    world as it is: the state, every other field of [Data], the
    outputs and the enable line, and no call is made. *)
Theorem idle_poll_is_noop (clocks : list Clock.t) w :
  Data.state (data_ w) = kInitializing \/ Data.state (data_ w) = kFault ->
  calls (map OnMillisecond clocks) w = Some w.
Proof.
  intros Hs. induction clocks as [| clock_ rest IH]; [reflexivity |].
  cbn [map calls call]. now rewrite PollMillisecond_idle.
Qed.

(** C9.  In each of the three states, a call of [HandleAhrs] lets the
    state handler return without any telemetry publication and then
    publishes the data as the handler left it, once. *)
Theorem telemetry_once_per_sample (clock_ : Clock.t) data w :
  Data.state (data_ w) <> kNumStates ->
  exists w1 evs,
    exec (dispatch clock_ data) w = Some w1 /\
    trace_ w1 = trace_ w ++ evs /\
    forallb (fun e => negb (is_DataUpdate e)) evs = true /\
    exec (HandleAhrs clock_ data) w =
    Some (mkWorld (config_ w1) (data_ w1) (motor_enable_ w1)
                  (motor1_ w1) (motor2_ w1)
                  (trace_ w ++ evs ++ [DataUpdate (data_ w1)])).
Proof.
  intros Hn.
  destruct (call_total (OnAhrs clock_ data) w Hn) as (w' & Hx & Ht).
  cbn [call] in Hx. rewrite HandleAhrs_published in Hx |- *.
  destruct (exec (dispatch clock_ data) w) as [w1 |]; [| discriminate].
  injection Hx as <-. exists w1.
  assert (Hev : exists evs,
             trace_ w1 ++ [DataUpdate (data_ w1)] =
             (trace_ w ++ evs) ++ [DataUpdate (data_ w1)] /\
             forallb (fun e => negb (is_DataUpdate e)) evs = true).
  { remember (published w1) as w' eqn:Hw'.
    assert (Htr : trace_ w' = trace_ w1 ++ [DataUpdate (data_ w1)])
      by (subst w'; reflexivity).
    assert (Hd : data_ w' = data_ w1) by (subst w'; reflexivity).
    rewrite <- Htr, <- Hd. clear Hw' Htr Hd.
    inversion Ht; subst; cbn.
    - exists [EnableSet false; Motor1Set 0 0 0; Motor2Set 0 0 0].
      split; [now rewrite <- !app_assoc | reflexivity].
    - exists [EnableSet false; Motor1Set 0 0 0; Motor2Set 0 0 0].
      split; [now rewrite <- !app_assoc | reflexivity].
    - exists [EnableSet (Data.torque_on (data_ w)); e1; e2].
      split.
      + match goal with H : trace_ _ = _ |- _ => rewrite H end.
        now rewrite <- !app_assoc.
      + cbn. destruct e1, e2; try discriminate; reflexivity.
    - exists [EnableSet false].
      split; [now rewrite <- !app_assoc | reflexivity].
    - exists [EnableSet false].
      split; [now rewrite <- !app_assoc | reflexivity].
    - exists [EnableSet false].
      split; [now rewrite <- !app_assoc | reflexivity].
    - exists [EnableSet false].
      split; [now rewrite <- !app_assoc | reflexivity]. }
  destruct Hev as (evs & Htr & Hno). exists evs.
  apply app_inj_tail in Htr as [Htr _].
  split; [reflexivity |]. split; [exact Htr |]. split; [exact Hno |].
  cbn. unfold published. now rewrite Htr, <- app_assoc.
Qed.



(** C8, as the code has it.  A call changes [last_ahrs_update] on two
    paths only, both in the sample handler on an error-free sample:
    a sample accepted while Operating sets it to the sample's
    timestamp, and the sample that arms the stabilizer from
    Initializing sets it to the clock tick of that call. *)
Theorem last_ahrs_update_writers c w w' :
  exec (call c) w = Some w' ->
  Data.last_ahrs_update (data_ w') <> Data.last_ahrs_update (data_ w) ->
  exists (clock_ : Clock.t) data,
    c = OnAhrs clock_ data /\
    AhrsData.error data = false /\
    ((Data.state (data_ w) = kOperating /\
      Data.last_ahrs_update (data_ w') = AhrsData.timestamp data) \/
     (Data.state (data_ w) = kInitializing /\
      Data.start_timestamp (data_ w) <> 0 /\
      init_elapsed clock_ w = true /\
      Data.state (data_ w') = kOperating /\
      Data.last_ahrs_update (data_ w') = Clock.timestamp clock_)).
Proof.
  intros Hx Hch. apply call_transition in Hx.
  destruct Hx; cbn in Hch; try congruence.
  - exists clock_, data. split; [reflexivity |]. split; [assumption |].
    left. split; assumption.
  - exists clock_, data. split; [reflexivity |]. split; [assumption |].
    right. repeat split; assumption.
Qed.

Lemma call_keeps_torque_off c w w' :
  exec (call c) w = Some w' ->
  Data.torque_on (data_ w) = false ->
  Data.torque_on (data_ w') = false /\
  exists evs,
    trace_ w' = trace_ w ++ evs /\
    Forall (fun e => e <> EnableSet true) evs.
Proof.
  intros Hx Hoff. apply call_transition in Hx.
  destruct Hx; cbn;
    try (split; [solve [assumption | reflexivity] |]).
  - exists []. now rewrite app_nil_r.
  - exists []. now rewrite app_nil_r.
  - eexists. split; [reflexivity |]. repeat constructor; discriminate.
  - eexists. split; [now rewrite <- app_assoc |].
    repeat constructor; discriminate.
  - eexists. split; [now rewrite <- app_assoc |].
    repeat constructor; discriminate.
  - split; [congruence |].
    eexists. split; [eassumption |]. rewrite Hoff.
    destruct e1, e2; try discriminate; repeat constructor; discriminate.
  - eexists. split; [reflexivity |]. repeat constructor; discriminate.
  - eexists. split; [reflexivity |]. repeat constructor; discriminate.
  - eexists. split; [reflexivity |]. repeat constructor; discriminate.
  - eexists. split; [reflexivity |]. repeat constructor; discriminate.
Qed.

(** C10.  From a world in which [torque_on] is false, as its
    initializer leaves it, no sequence of calls of the entry points
    makes it true, and every enable write of the sequence, those made
    while Operating included, passes false. *)
Theorem torque_on_never_set (cs : list Call) w w' :
  Data.torque_on (data_ w) = false ->
  calls cs w = Some w' ->
  Data.torque_on (data_ w') = false /\
  exists evs,
    trace_ w' = trace_ w ++ evs /\
    Forall (fun e => e <> EnableSet true) evs.
Proof.
  revert w. induction cs as [| c rest IH]; intros w Hoff Hcs.
  - injection Hcs as <-. split; [exact Hoff |].
    exists []. now rewrite app_nil_r.
  - cbn [calls] in Hcs.
    destruct (exec (call c) w) as [w1 |] eqn:Hx; [| discriminate].
    destruct (call_keeps_torque_off c w w1 Hx Hoff) as (Hoff1 & evs1 & Ht1 & Hq1).
    destruct (IH w1 Hoff1 Hcs) as (Hoff' & evs & Ht & Hq).
    split; [exact Hoff' |]. exists (evs1 ++ evs).
    split; [now rewrite Ht, Ht1, app_assoc |].
    apply Forall_app. now split.
Qed.

End Properties.

(** ** The phase mapping *)

Section PhaseMapping.

Context {P : Platform}.

Lemma holds_from_sound (test : Z -> bool) (count : nat) (n k : Z) :
  holds_from test count n = true ->
  n <= k < n + Z.of_nat count -> test k = true.
Proof.
  revert n. induction count as [| count IH]; intros n Hall Hk; [lia |].
  cbn [holds_from] in Hall. apply andb_true_iff in Hall as [Hn Hrest].
  destruct (Z.eq_dec k n) as [-> | Hne]; [exact Hn |].
  apply (IH (n + 1)); [exact Hrest | lia].
Qed.

(** Every 16 bit integer is a [float], and converts back to itself:
    checked on each of them. *)
Lemma trunc_of_Z_uint16 (n : Z) :
  0 <= n < 65536 -> F32.trunc (F32.of_Z n) = Some n.
Proof.
  intros Hn.
  assert (Hall : holds_from survives_float (Z.to_nat 65536) 0 = true)
    by (vm_compute; reflexivity).
  apply holds_from_sound with (k := n) in Hall; [| lia].
  unfold survives_float in Hall.
  destruct (F32.trunc (F32.of_Z n)) as [z |]; [| discriminate].
  f_equal. now apply Z.eqb_eq.
Qed.

Lemma uint16_through_float (n : Z) :
  0 <= n < 65536 -> F32.to_unsigned undef 16 (F32.of_Z n) = n.
Proof.
  intros Hn. unfold F32.to_unsigned. rewrite trunc_of_Z_uint16 by exact Hn.
  destruct (Z.leb_spec 0 n); [| lia].
  destruct (Z.ltb_spec n (2 ^ 16)); [reflexivity | lia].
Qed.

(** C7.  [phase] is a function of the command and the phase offset
    alone: it reads and writes no state.  Whatever the command, the
    offset, the sine and the outcome of the conversion, its result
    lies between 0 and 65535, and that is the number the channel
    receives once the result has gone through the [float] local. *)
Theorem phase_in_range (command phase_ : float) :
  0 <= phase command phase_ <= 65535 /\
  F32.to_unsigned undef 16 (F32.of_Z (phase command phase_)) =
  phase command phase_.
Proof.
  assert (Hr : 0 <= phase command phase_ <= 65535).
  { unfold phase, uint16_modulus.
    rewrite Z.mod_small; lia. }
  split; [exact Hr |]. apply uint16_through_float. lia.
Qed.

End PhaseMapping.

(** ** The watchdog threshold

    What the single precision quotient of the watchdog is, compared
    with the period: the conversion of the tick count, the division and
    the comparison, followed through [SpecFloat]'s definitions for
    normal numbers. *)

Section SinglePrecision.

Lemma digits2_pos_bounds (m : positive) :
  2 ^ (Zpos (digits2_pos m) - 1) <= Zpos m < 2 ^ Zpos (digits2_pos m).
Proof.
  induction m as [m IH | m IH |]; cbn [digits2_pos];
    [pose proof (Pos2Z.is_pos (digits2_pos m)) as Hd ..
    | cbn; lia];
    rewrite Pos2Z.inj_succ;
    replace (Z.succ (Zpos (digits2_pos m)) - 1)
      with (Z.succ (Zpos (digits2_pos m) - 1)) by lia;
    rewrite !Z.pow_succ_r by lia.
  - rewrite Pos2Z.inj_xI. lia.
  - rewrite (Pos2Z.inj_xO m). lia.
Qed.

Lemma digits2_pos_unique (m : positive) (k : Z) :
  2 ^ (k - 1) <= Zpos m < 2 ^ k -> Zpos (digits2_pos m) = k.
Proof.
  intros [Hlo Hhi]. pose proof (digits2_pos_bounds m) as [Blo Bhi].
  set (d := Zpos (digits2_pos m)) in *.
  assert (0 < d) by (subst d; lia).
  destruct (Z.lt_trichotomy d k) as [Hlt | [Heq | Hgt]]; [| exact Heq |].
  - assert (2 ^ d <= 2 ^ (k - 1)) by (apply Z.pow_le_mono_r; lia). lia.
  - assert (0 <= k).
    { destruct (Z.le_gt_cases 0 k); [assumption |].
      rewrite (Z.pow_neg_r 2 k) in Hhi by lia. lia. }
    assert (2 ^ k <= 2 ^ (d - 1)) by (apply Z.pow_le_mono_r; lia). lia.
Qed.

Lemma iter_xO_pow2 (m k : positive) :
  Zpos (Pos.iter xO m k) = Zpos m * 2 ^ Zpos k.
Proof.
  induction k as [| k IH] using Pos.peano_ind.
  - cbn. lia.
  - rewrite Pos.iter_succ, Pos2Z.inj_xO, IH, Pos2Z.inj_succ, Z.pow_succ_r by lia.
    lia.
Qed.

Lemma shr_1_spec (m : Z) (r s : bool) :
  0 <= m ->
  shr_1 (Build_shr_record m r s) =
  Build_shr_record (m / 2) (Z.odd m) (r || s).
Proof.
  intros Hm. destruct m as [| p | p]; [reflexivity | | lia].
  destruct p as [p | p |]; cbn [shr_1 Z.odd]; f_equal.
  - apply Z.div_unique with 1; lia.
  - apply Z.div_unique with 0; lia.
Qed.

Lemma shr_record_of_loc_m (m : Z) (l : location) :
  shr_m (shr_record_of_loc m l) = m.
Proof. destruct l as [| []]; reflexivity. Qed.

Lemma loc_of_shr_record_of_loc (m : Z) (l : location) :
  loc_of_shr_record (shr_record_of_loc m l) = l.
Proof. destruct l as [| []]; reflexivity. Qed.

Lemma round_nearest_even_step (m : Z) (l : location) :
  m <= round_nearest_even m l <= m + 1.
Proof.
  unfold round_nearest_even.
  destruct l as [| []]; try destruct (Z.even m); lia.
Qed.

(** The first shift of [binary_round_aux] on a quotient of 24 or 25
    bits: by [n] places, none or one. *)
Lemma shr_fexp_normal (q e : Z) (l : location) :
  2 ^ 23 <= q < 2 ^ 25 -> -149 <= e ->
  exists (mrs : shr_record) (n : Z),
    shr_fexp 24 128 q e l = (mrs, e + n) /\
    ((n = 0 /\ q < 2 ^ 24 /\ mrs = shr_record_of_loc q l) \/
     (n = 1 /\ 2 ^ 24 <= q /\ mrs = shr_1 (shr_record_of_loc q l))).
Proof.
  intros Hq He. destruct q as [| p | p]; [lia | | lia].
  unfold shr_fexp, Zdigits2.
  destruct (Z.lt_ge_cases (Zpos p) (2 ^ 24)) as [Hlt | Hge].
  - rewrite (digits2_pos_unique p 24) by (change (24 - 1) with 23; lia).
    replace (fexp 24 128 (24 + e) - e) with 0 by (unfold fexp, emin; lia).
    exists (shr_record_of_loc (Zpos p) l), 0. cbn [shr].
    rewrite Z.add_0_r. auto.
  - rewrite (digits2_pos_unique p 25) by (change (25 - 1) with 24; lia).
    replace (fexp 24 128 (25 + e) - e) with 1 by (unfold fexp, emin; lia).
    exists (shr_1 (shr_record_of_loc (Zpos p) l)), 1. cbn [shr iter_pos].
    auto.
Qed.

(** The shift followed by the rounding to nearest even: the significand
    [m2] it leaves, [n] places up, is within one unit of the quotient
    [q], and not below [q] when the quotient was inexact. *)
Lemma shift_and_round (q e : Z) (l : location) :
  2 ^ 23 <= q < 2 ^ 25 -> -149 <= e ->
  exists (mrs : shr_record) (n : Z),
    shr_fexp 24 128 q e l = (mrs, e + n) /\
    0 <= n <= 1 /\
    let m2 := round_nearest_even (shr_m mrs) (loc_of_shr_record mrs) in
    2 ^ 23 <= m2 <= 2 ^ 24 /\
    q - 1 <= m2 * 2 ^ n <= q + 1 /\
    (l <> loc_Exact -> q <= m2 * 2 ^ n).
Proof.
  intros Hq He.
  destruct (shr_fexp_normal q e l Hq He)
    as (mrs & n & Hshr & [(-> & Hlt & ->) | (-> & Hge & ->)]);
    eexists; eexists; (split; [exact Hshr |]); (split; [lia |]); cbv zeta.
  - rewrite shr_record_of_loc_m, loc_of_shr_record_of_loc.
    pose proof (round_nearest_even_step q l). lia.
  - pose proof (Z.div2_odd q) as Hodd. rewrite Z.div2_div in Hodd.
    change (2 ^ 1) with 2.
    destruct l as [| []]; cbn [shr_record_of_loc];
      rewrite shr_1_spec by lia;
      destruct (Z.odd q); cbn [Z.b2z] in Hodd;
      cbn [shr_m loc_of_shr_record orb round_nearest_even];
      repeat split; intros; try congruence;
      try destruct (Z.even (q / 2)); lia.
Qed.

(** [binary_round_aux] on a quotient of 24 or 25 bits gives a normal
    number, [v] places up, within one unit of the quotient. *)
Lemma binary_round_aux_normal (q e : Z) (l : location) :
  2 ^ 23 <= q < 2 ^ 25 -> -149 <= e <= 101 ->
  exists (M : positive) (v : Z),
    binary_round_aux 24 128 false q e l = S754_finite false M (e + v) /\
    0 <= v <= 2 /\
    2 ^ 23 <= Zpos M < 2 ^ 24 /\
    q - 1 <= Zpos M * 2 ^ v <= q + 1 /\
    (l <> loc_Exact -> q <= Zpos M * 2 ^ v).
Proof.
  intros Hq He. unfold binary_round_aux.
  destruct (shift_and_round q e l Hq) as (mrs & n & -> & Hn & Hm2 & Hnear & Hup);
    [lia |].
  set (m2 := round_nearest_even (shr_m mrs) (loc_of_shr_record mrs)) in *.
  destruct (shr_fexp_normal m2 (e + n) loc_Exact)
    as (mrs2 & n2 & -> & Hn2); [lia | lia |].
  assert (Hm3 : 0 <= n2 <= 1 /\ 2 ^ 23 <= shr_m mrs2 < 2 ^ 24 /\
                shr_m mrs2 * 2 ^ n2 = m2).
  { destruct Hn2 as [(-> & Hlt & ->) | (-> & Hge & ->)].
    - cbn [shr_record_of_loc shr_m]. lia.
    - assert (m2 = 2 ^ 24) as -> by lia. cbn. lia. }
  destruct Hm3 as (Hn2' & Hm3 & Hexact).
  destruct (shr_m mrs2) as [| M | M]; [lia | | lia].
  replace (e + n + n2 <=? 128 - 24) with true by (symmetry; apply Z.leb_le; lia).
  exists M, (n + n2). rewrite Z.add_assoc.
  split; [reflexivity |]. split; [lia |]. split; [exact Hm3 |].
  replace (Zpos M * 2 ^ (n + n2)) with (m2 * 2 ^ n).
  - split; assumption.
  - rewrite <- Hexact, Z.pow_add_r by lia. ring.
Qed.

Lemma binary_round_aux_exact (m : positive) (e : Z) :
  2 ^ 23 <= Zpos m < 2 ^ 24 -> -149 <= e <= 104 ->
  binary_round_aux 24 128 false (Zpos m) e loc_Exact = S754_finite false m e.
Proof.
  intros Hm He. unfold binary_round_aux, shr_fexp, Zdigits2.
  rewrite (digits2_pos_unique m 24) by (change (24 - 1) with 23; lia).
  replace (fexp 24 128 (24 + e) - e) with 0 by (unfold fexp, emin; lia).
  cbn [shr shr_record_of_loc shr_m loc_of_shr_record round_nearest_even].
  rewrite (digits2_pos_unique m 24) by (change (24 - 1) with 23; lia).
  replace (fexp 24 128 (24 + e) - e) with 0 by (unfold fexp, emin; lia).
  cbn [shr shr_m].
  replace (e <=? 128 - 24) with true by (symmetry; apply Z.leb_le; lia).
  reflexivity.
Qed.

Lemma of_Z_normal (n : Z) :
  1 <= n < 2 ^ 24 ->
  exists (M : positive) (ex : Z),
    F32.of_Z n = S754_finite false M ex /\
    -23 <= ex <= 0 /\
    2 ^ 23 <= Zpos M < 2 ^ 24 /\
    Zpos M = n * 2 ^ (- ex).
Proof.
  intros Hn. destruct n as [| p | p]; [lia | | lia].
  unfold F32.of_Z, binary_normalize, binary_round.
  pose proof (digits2_pos_bounds p) as [Blo Bhi].
  set (d := Zpos (digits2_pos p)) in *.
  assert (Hd : 1 <= d <= 24).
  { split; [subst d; lia |].
    destruct (Z.le_gt_cases d 24) as [| Hgt]; [assumption |].
    assert (2 ^ 24 <= 2 ^ (d - 1)) by (apply Z.pow_le_mono_r; lia). lia. }
  replace (fexp F32.prec F32.emax (d + 0)) with (d - 24)
    by (unfold fexp, emin, F32.prec, F32.emax; lia).
  unfold shl_align.
  destruct (d - 24 - 0) as [| k | k] eqn:Hk; [| lia |].
  - replace (d - 1) with 23 in Blo by lia.
    rewrite binary_round_aux_exact by lia.
    exists p, 0. repeat split; lia.
  - assert (Hpow : 2 ^ (d - 1) * 2 ^ Zpos k = 2 ^ 23).
    { rewrite <- Z.pow_add_r by lia. f_equal. lia. }
    assert (Hpow' : 2 ^ d = 2 * 2 ^ (d - 1)).
    { rewrite <- Z.pow_succ_r by lia. f_equal. lia. }
    assert (Hpos : 0 < 2 ^ Zpos k) by (apply Z.pow_pos_nonneg; lia).
    pose proof (iter_xO_pow2 p k) as Hiter.
    rewrite binary_round_aux_exact by nia.
    exists (Pos.iter xO p k), (d - 24). split; [reflexivity |].
    split; [lia |]. split; [nia |].
    rewrite Hiter. f_equal. f_equal. lia.
Qed.

Lemma new_location_exact (steps k : Z) :
  new_location steps k = loc_Exact -> k = 0.
Proof.
  unfold new_location, new_location_even, new_location_odd.
  destruct (Z.even steps); destruct (Z.eqb_spec k 0); auto; discriminate.
Qed.

(** The quotient of two normal numbers, when it is normal too: the
    result [M * 2^(ex - et - 24 + v)] is within half a unit in the last
    place of the exact quotient [mx * 2^ex / (mt * 2^et)]; here with
    both sides multiplied by [mt * 2^(et - ex + 24)]. *)
Lemma div_normal (mx mt : positive) (ex et : Z) :
  2 ^ 23 <= Zpos mx < 2 ^ 24 ->
  2 ^ 23 <= Zpos mt < 2 ^ 24 ->
  -149 <= ex - et - 24 <= 101 ->
  exists (M : positive) (v : Z),
    F32.div (S754_finite false mx ex) (S754_finite false mt et) =
    S754_finite false M (ex - et - 24 + v) /\
    0 <= v <= 2 /\
    2 ^ 23 <= Zpos M < 2 ^ 24 /\
    Zpos mx * 2 ^ 24 - Zpos mt <= Zpos M * 2 ^ v * Zpos mt
      <= Zpos mx * 2 ^ 24 + Zpos mt.
Proof.
  intros Hx Ht He.
  unfold F32.div, SFdiv, SFdiv_core_binary, Zdigits2.
  rewrite (digits2_pos_unique mx 24), (digits2_pos_unique mt 24)
    by (change (24 - 1) with 23; lia).
  replace (Z.min (fexp F32.prec F32.emax (24 + ex - (24 + et))) (ex - et))
    with (ex - et - 24)
    by (unfold fexp, emin, F32.prec, F32.emax; lia).
  replace (ex - et - (ex - et - 24)) with 24 by lia.
  rewrite Z.shiftl_mul_pow2 by lia.
  pose proof (Z_div_mod (Zpos mx * 2 ^ 24) (Zpos mt) eq_refl) as Hdiv.
  destruct (Z.div_eucl (Zpos mx * 2 ^ 24) (Zpos mt)) as [q r].
  destruct Hdiv as [Hdiv Hr].
  assert (Hq : 2 ^ 23 <= q < 2 ^ 25) by nia.
  destruct (binary_round_aux_normal q (ex - et - 24) (new_location (Zpos mt) r))
    as (M & v & Hres & Hv & HM & Hnear & Hup); [exact Hq | lia |].
  exists M, v. cbn [xorb]. split; [exact Hres |].
  split; [exact Hv |]. split; [exact HM |].
  destruct (Z.eq_dec r 0) as [-> | Hr0].
  - nia.
  - assert (q <= Zpos M * 2 ^ v).
    { apply Hup. intros Hex. now apply new_location_exact in Hex. }
    nia.
Qed.

Lemma pow2_step (a b : Z) : 0 <= a < b -> 2 * 2 ^ a <= 2 ^ b.
Proof.
  intros H. rewrite <- Z.pow_succ_r by lia. apply Z.pow_le_mono_r; lia.
Qed.

Lemma valid_mantissa (s : bool) (m : positive) (e : Z) :
  valid_binary F32.prec F32.emax (S754_finite s m e) = true ->
  Zpos m < 2 ^ 24 /\ (2 ^ 23 <= Zpos m \/ e = -149).
Proof.
  unfold valid_binary, bounded, canonical_mantissa, fexp, emin,
    F32.prec, F32.emax.
  intros H. apply andb_true_iff in H as [H _]. apply Z.eqb_eq in H.
  pose proof (digits2_pos_bounds m) as [Blo Bhi].
  set (d := Zpos (digits2_pos m)) in *.
  assert (0 < d) by (subst d; lia).
  assert (Hd : d <= 24) by lia. split.
  - assert (2 ^ d <= 2 ^ 24) by (apply Z.pow_le_mono_r; lia). lia.
  - destruct (Z.eq_dec d 24) as [Heq | Hne]; [| right; lia].
    left. rewrite Heq in Blo. exact Blo.
Qed.

Lemma ltb_finite (m1 m2 : positive) (e1 e2 a b : Z) :
  Zpos m1 < 2 ^ 24 -> 2 ^ 23 <= Zpos m1 \/ e1 <= e2 ->
  0 <= a -> 0 <= b -> e1 - e2 = a - b ->
  Zpos m1 * 2 ^ a < Zpos m2 * 2 ^ b ->
  2 ^ 23 <= Zpos m2 < 2 ^ 24 ->
  SFltb (S754_finite false m1 e1) (S754_finite false m2 e2) = true.
Proof.
  intros Hm1 Hn1 Ha Hb He Hlt Hm2. unfold SFltb, SFcompare.
  destruct (Z.compare_spec e1 e2) as [Heq | Hl | Hg]; [| reflexivity |].
  - assert (a = b) as -> by lia.
    assert (0 < 2 ^ b) by (apply Z.pow_pos_nonneg; lia).
    fold (Pos.compare m1 m2).
    replace (m1 ?= m2)%positive with Lt; [reflexivity |].
    symmetry. apply Pos.compare_lt_iff. nia.
  - exfalso. destruct Hn1 as [Hn1 | Hn1]; [| lia].
    pose proof (pow2_step b a ltac:(lia)).
    assert (0 < 2 ^ b) by (apply Z.pow_pos_nonneg; lia). nia.
Qed.

Lemma ltb_finite_false (m1 m2 : positive) (e1 e2 a b : Z) :
  Zpos m1 < 2 ^ 24 -> 2 ^ 23 <= Zpos m2 ->
  0 <= a -> 0 <= b -> e1 - e2 = a - b ->
  Zpos m2 * 2 ^ b <= Zpos m1 * 2 ^ a ->
  SFltb (S754_finite false m1 e1) (S754_finite false m2 e2) = false.
Proof.
  intros Hm1 Hm2 Ha Hb He Hle. unfold SFltb, SFcompare.
  destruct (Z.compare_spec e1 e2) as [Heq | Hl | Hg]; [| | reflexivity].
  - assert (a = b) as -> by lia.
    assert (0 < 2 ^ b) by (apply Z.pow_pos_nonneg; lia).
    fold (Pos.compare m1 m2).
    destruct (Pos.compare_spec m1 m2) as [| Hlt |]; try reflexivity.
    exfalso. apply Pos2Z.pos_lt_pos in Hlt. nia.
  - exfalso. pose proof (pow2_step a b ltac:(lia)).
    assert (0 < 2 ^ a) by (apply Z.pow_pos_nonneg; lia). nia.
Qed.

Lemma sub32_after (T n : Z) :
  0 <= n < uint32_modulus -> sub32 ((T + n) mod uint32_modulus) T = n.
Proof.
  intros Hn. unfold sub32. rewrite Zminus_mod_idemp_l.
  replace (T + n - T) with n by lia. now apply Z.mod_small.
Qed.

Lemma div_float_rate_div (v : float) (r : TickRate) :
  div_float_rate v r = F32.div v (rate_float r).
Proof. destruct r; reflexivity. Qed.

Lemma normal_rate_inv (t : float) :
  normal_rate t = true ->
  exists (mt : positive) (et : Z),
    t = S754_finite false mt et /\
    2 ^ 23 <= Zpos mt < 2 ^ 24 /\ -125 <= et <= 102.
Proof.
  destruct t as [| | | [] mt et]; try discriminate. cbn [normal_rate].
  intros H. apply andb_true_iff in H as [H Hhi].
  apply andb_true_iff in H as [Hd Hlo].
  apply Z.eqb_eq in Hd. apply Z.leb_le in Hlo, Hhi.
  exists mt, et. split; [reflexivity |]. split; [| lia].
  pose proof (digits2_pos_bounds mt) as Hb. rewrite Hd in Hb.
  exact Hb.
Qed.

(** More than a tick past the period: the quotient the watchdog
    computes is above the period. *)
Lemma elapsed_above (W t : float) (n : Z) :
  valid_binary F32.prec F32.emax W = true ->
  normal_rate t = true ->
  n < 2 ^ 24 ->
  period_at_most W t (n - 1) = true ->
  F32.gt (F32.div (F32.of_Z n) t) W = true.
Proof.
  intros HW Ht Hn Hp.
  destruct (normal_rate_inv t Ht) as (mt & et & -> & Hmt & Het).
  destruct W as [| | | [] mW eW]; try discriminate.
  destruct (valid_mantissa _ _ _ HW) as [HmW HnW].
  unfold period_at_most, scaled_leb in Hp. apply Z.leb_le in Hp.
  set (a := eW + et) in *.
  assert (HmWt : 2 ^ 23 <= Zpos mW * Zpos mt) by nia.
  destruct (Z.le_gt_cases a 0) as [Ha | Ha].
  2:{ exfalso. rewrite Z.min_r in Hp by lia.
      replace (0 - 0) with 0 in Hp by lia. rewrite Z.sub_0_r in Hp.
      pose proof (pow2_step 0 a ltac:(lia)). nia. }
  rewrite Z.min_l in Hp by lia.
  replace (a - a) with 0 in Hp by lia.
  replace (0 - a) with (- a) in Hp by lia.
  rewrite Z.pow_0_r, Z.mul_1_r in Hp.
  assert (HB : 0 < 2 ^ (- a)) by (apply Z.pow_pos_nonneg; lia).
  assert (Hn2 : 2 <= n) by nia.
  destruct (of_Z_normal n) as (mx & ex & Hof & Hex & Hmx & Hval); [lia |].
  destruct (div_normal mx mt ex et Hmx Hmt)
    as (M & v & Hdiv & Hv & HM & Hlo & Hhi); [lia |].
  unfold F32.gt. rewrite Hof, Hdiv.
  apply ltb_finite with (a := 24 - ex) (b := v - a);
    [lia | lia | lia | lia | lia | | lia].
  assert (HA : 2 ^ (24 - ex) = 2 ^ 24 * 2 ^ (- ex))
    by (rewrite <- Z.pow_add_r by lia; f_equal; lia).
  assert (HA2 : 2 ^ 24 <= 2 ^ (24 - ex))
    by (apply Z.pow_le_mono_r; lia).
  assert (Hvb : 2 ^ (v - a) = 2 ^ v * 2 ^ (- a))
    by (rewrite <- Z.pow_add_r by lia; f_equal; lia).
  rewrite Hvb. rewrite Hval in Hlo.
  replace (n * 2 ^ (- ex) * 2 ^ 24) with (n * 2 ^ (24 - ex)) in Hlo
    by (rewrite HA; ring).
  set (A := 2 ^ (24 - ex)) in *. set (B := 2 ^ (- a)) in *.
  set (V := 2 ^ v) in *.
  assert (H1 : (n - 1) * A < Zpos M * V * Zpos mt) by nia.
  assert (H2 : Zpos mW * Zpos mt * A <= (n - 1) * B * A)
    by (apply Z.mul_le_mono_nonneg_r; lia).
  assert (H3 : (n - 1) * A * B < Zpos M * V * Zpos mt * B)
    by (apply Z.mul_lt_mono_pos_r; lia).
  apply Z.mul_lt_mono_pos_r with (p := Zpos mt); [lia |].
  lia.
Qed.

(** More than a tick short of the period: the quotient is not above
    the period. *)
Lemma elapsed_not_above (W t : float) (n : Z) :
  valid_binary F32.prec F32.emax W = true ->
  normal_rate t = true ->
  0 <= n < 2 ^ 24 ->
  period_at_least W t (n + 1) = true ->
  F32.gt (F32.div (F32.of_Z n) t) W = false.
Proof.
  intros HW Ht Hn Hp.
  destruct (normal_rate_inv t Ht) as (mt & et & -> & Hmt & Het).
  destruct W as [| | | [] mW eW]; try discriminate.
  destruct (valid_mantissa _ _ _ HW) as [HmW _].
  destruct (Z.eq_dec n 0) as [-> | Hn0]; [reflexivity |].
  unfold period_at_least, scaled_leb in Hp. apply Z.leb_le in Hp.
  set (a := eW + et) in *.
  destruct (of_Z_normal n) as (mx & ex & Hof & Hex & Hmx & Hval); [lia |].
  destruct (div_normal mx mt ex et Hmx Hmt)
    as (M & v & Hdiv & Hv & HM & Hlo & Hhi); [lia |].
  unfold F32.gt. rewrite Hof, Hdiv.
  destruct (Z.le_gt_cases a 0) as [Ha | Ha].
  - rewrite Z.min_r in Hp by lia.
    replace (a - a) with 0 in Hp by lia.
    replace (0 - a) with (- a) in Hp by lia.
    rewrite Z.pow_0_r, Z.mul_1_r in Hp.
    assert (HB : 0 < 2 ^ (- a)) by (apply Z.pow_pos_nonneg; lia).
    apply ltb_finite_false with (a := 24 - ex) (b := v - a);
      [lia | lia | lia | lia | lia |].
    assert (HA : 2 ^ (24 - ex) = 2 ^ 24 * 2 ^ (- ex))
      by (rewrite <- Z.pow_add_r by lia; f_equal; lia).
    assert (HA2 : 2 ^ 24 <= 2 ^ (24 - ex))
      by (apply Z.pow_le_mono_r; lia).
    assert (Hvb : 2 ^ (v - a) = 2 ^ v * 2 ^ (- a))
      by (rewrite <- Z.pow_add_r by lia; f_equal; lia).
    rewrite Hvb. rewrite Hval in Hhi.
    replace (n * 2 ^ (- ex) * 2 ^ 24) with (n * 2 ^ (24 - ex)) in Hhi
      by (rewrite HA; ring).
    set (A := 2 ^ (24 - ex)) in *. set (B := 2 ^ (- a)) in *.
    set (V := 2 ^ v) in *.
    assert (H1 : Zpos M * V * Zpos mt <= (n + 1) * A) by nia.
    assert (H2 : (n + 1) * B * A <= Zpos mW * Zpos mt * A)
      by (apply Z.mul_le_mono_nonneg_r; lia).
    assert (H3 : Zpos M * V * Zpos mt * B <= (n + 1) * A * B)
      by (apply Z.mul_le_mono_nonneg_r; lia).
    apply Z.mul_le_mono_pos_r with (p := Zpos mt); [lia |].
    lia.
  - apply ltb_finite_false with (a := 24 - ex + a) (b := v);
      [lia | lia | lia | lia | lia |].
    assert (2 ^ 25 <= 2 ^ (24 - ex + a)) by (apply Z.pow_le_mono_r; lia).
    assert (0 < 2 ^ v) by (apply Z.pow_pos_nonneg; lia).
    assert (Zpos M * 2 ^ v <= 2 ^ 25) by nia.
    nia.
Qed.







End SinglePrecision.

Section Watchdog.

Context {P : Platform}.

Lemma watchdog_elapsed_after (w : World) (T n : Z) (r : TickRate) :
  Data.last_ahrs_update (data_ w) = T ->
  0 <= n < uint32_modulus ->
  watchdog_elapsed (Clock.mk ((T + n) mod uint32_modulus) r) w =
  F32.gt (F32.div (F32.of_Z n) (rate_float r))
         (Config.watchdog_period_s (config_ w)).
Proof.
  intros HT Hn. unfold watchdog_elapsed. cbn [Clock.timestamp Clock.ticks_per_second].
  now rewrite HT, sub32_after, div_float_rate_div.
Qed.

(** A poll [late] ticks after the last sample, more than a tick past
    the period, faults; a poll [early] ticks after it, more than a tick
    short of the period, changes nothing. *)
Lemma watchdog_band (w : World) (T late early : Z) (r : TickRate) :
  Data.state (data_ w) = kOperating ->
  Data.last_ahrs_update (data_ w) = T ->
  valid_binary F32.prec F32.emax (Config.watchdog_period_s (config_ w)) = true ->
  normal_rate (rate_float r) = true ->
  0 <= early < 2 ^ 24 -> 0 <= late < 2 ^ 24 ->
  period_at_most (Config.watchdog_period_s (config_ w)) (rate_float r)
                 (late - 1) = true ->
  period_at_least (Config.watchdog_period_s (config_ w)) (rate_float r)
                  (early + 1) = true ->
  exec (PollMillisecond (Clock.mk ((T + late) mod uint32_modulus) r)) w
  = Some (faulted w) /\
  exec (PollMillisecond (Clock.mk ((T + early) mod uint32_modulus) r)) w
  = Some w.
Proof.
  intros Hs HT HW Hr He Hl Hmost Hleast.
  rewrite !PollMillisecond_operating by exact Hs.
  rewrite !(watchdog_elapsed_after w T)
    by (try exact HT; unfold uint32_modulus; lia).
  rewrite (elapsed_above _ _ late HW Hr) by (try exact Hmost; lia).
  rewrite (elapsed_not_above _ _ early HW Hr) by (try exact Hleast; lia).
  split; reflexivity.
Qed.

(** C3, as the code has it.  Let the watchdog period be a valid positive
    single, the tick rate a normal single between [2^-102] and [2^126],
    their exact product a whole number [N] of ticks, and [N + 1] below
    [2^24].  While Operating with [last_ahrs_update = T], the poll at
    tick [T + N + 1] (modulo [2^32], as the clock counts) leaves the
    faulted world: state Fault, [torque_on] false, enable low and both
    channels at zero; the poll at tick [T + N - 1] leaves the world as
    it is. *)
Theorem watchdog_threshold (w : World) (T N : Z) (r : TickRate) :
  Data.state (data_ w) = kOperating ->
  Data.last_ahrs_update (data_ w) = T ->
  valid_binary F32.prec F32.emax (Config.watchdog_period_s (config_ w)) = true ->
  normal_rate (rate_float r) = true ->
  whole_ticks (Config.watchdog_period_s (config_ w)) (rate_float r) N = true ->
  N + 1 < 2 ^ 24 ->
  exec (PollMillisecond (Clock.mk ((T + N + 1) mod uint32_modulus) r)) w
  = Some (faulted w) /\
  exec (PollMillisecond (Clock.mk ((T + N - 1) mod uint32_modulus) r)) w
  = Some w.
Proof.
  intros Hs HT HW Hr Hwhole HN.
  apply andb_true_iff in Hwhole as [Hmost Hleast].
  assert (HN1 : 1 <= N).
  { destruct (Config.watchdog_period_s (config_ w)) as [| | | [] mW eW];
      try discriminate.
    destruct (rate_float r) as [| | | [] mt et]; try discriminate.
    unfold period_at_most, scaled_leb in Hmost. apply Z.leb_le in Hmost.
    assert (0 < 2 ^ (eW + et - Z.min (eW + et) 0))
      by (apply Z.pow_pos_nonneg; lia).
    assert (0 < 2 ^ (0 - Z.min (eW + et) 0))
      by (apply Z.pow_pos_nonneg; lia).
    nia. }
  rewrite <- Z.add_assoc.
  replace (T + N - 1) with (T + (N - 1)) by lia.
  apply watchdog_band; try assumption; try lia.
  - now replace (N + 1 - 1) with N by lia.
  - now replace (N - 1 + 1) with N by lia.
Qed.

(** With the default period of a tenth of a second and ten thousand
    ticks to the second the product is not a whole number of ticks (the
    single nearest to 0.1 is a little above it): the poll 1002 ticks
    after the last sample faults and the poll 999 ticks after it does
    not. *)
Lemma watchdog_default_period (w : World) (T : Z) :
  Data.state (data_ w) = kOperating ->
  Data.last_ahrs_update (data_ w) = T ->
  Config.watchdog_period_s (config_ w) = Bench.tenth ->
  exec (PollMillisecond (Bench.clock ((T + 1002) mod uint32_modulus))) w
  = Some (faulted w) /\
  exec (PollMillisecond (Bench.clock ((T + 999) mod uint32_modulus))) w
  = Some w.
Proof.
  intros Hs HT HW. unfold Bench.clock.
  apply watchdog_band; try assumption; try lia;
    rewrite ?HW; vm_compute; reflexivity.
Qed.

End Watchdog.

(** ** The claims on the test bench *)

Lemma non_operating_outputs_off_bench :
  reachable Bench.world0 /\
  Data.state (data_ Bench.world0) <> kOperating /\
  exists w' evs,
    exec (call (OnAhrs (Bench.clock 5) (Bench.sample 5 false))) Bench.world0
    = Some w' /\
    outputs_off w' /\
    trace_ w' = trace_ Bench.world0 ++ evs /\
    Forall quiet evs.
Proof.
  assert (Hr : reachable Bench.world0)
    by (apply reachable_initial; repeat split).
  assert (Hs : Data.state (data_ Bench.world0) <> kOperating)
    by discriminate.
  split; [exact Hr |]. split; [exact Hs |].
  exact (non_operating_outputs_off Bench.world0 _ Hr Hs).
Defined.

Lemma operating_error_faults_bench :
  exists w',
    exec (HandleAhrs (Bench.clock 20105) (Bench.sample 20105 true))
         Bench.operating = Some w' /\
    Data.state (data_ w') = kFault /\
    Data.torque_on (data_ w') = false /\
    motor_enable_ w' = false /\
    motor1_ w' = (0, 0, 0) /\
    motor2_ w' = (0, 0, 0) /\
    trace_ w' =
    trace_ Bench.operating ++
    [EnableSet false; Motor1Set 0 0 0; Motor2Set 0 0 0; DataUpdate (data_ w')].
Proof.
  apply operating_error_faults; reflexivity.
Defined.

Lemma error_samples_reset_timer_bench :
  exists w',
    calls [OnAhrs (Bench.clock 7000) (Bench.sample 7000 true);
           OnAhrs (Bench.clock 7100) (Bench.sample 7100 true)] Bench.timing
    = Some w' /\
    Data.state (data_ w') = kInitializing /\
    Data.start_timestamp (data_ w') = 0 /\
    forall (clock_ : Clock.t) data,
      AhrsData.error data = false ->
      exists w'',
        exec (HandleAhrs clock_ data) w' = Some w'' /\
        Data.state (data_ w'') = kInitializing /\
        Data.start_timestamp (data_ w'') = Clock.timestamp clock_.
Proof.
  apply (error_samples_reset_timer
           [(Bench.clock 7000, Bench.sample 7000 true);
            (Bench.clock 7100, Bench.sample 7100 true)] Bench.timing).
  - reflexivity.
  - discriminate.
  - repeat constructor.
Defined.

Lemma idle_poll_is_noop_bench :
  calls [OnMillisecond (Bench.clock 30000); OnMillisecond (Bench.clock 5)]
        Bench.in_fault = Some Bench.in_fault /\
  calls [OnMillisecond (Bench.clock 4000000000)] Bench.timing
  = Some Bench.timing.
Proof.
  split.
  - apply (idle_poll_is_noop [Bench.clock 30000; Bench.clock 5]).
    right. reflexivity.
  - apply (idle_poll_is_noop [Bench.clock 4000000000]).
    left. reflexivity.
Defined.

Lemma telemetry_once_per_sample_bench :
  exists w1 evs,
    exec (dispatch (Bench.clock 20105) (Bench.sample 20105 false))
         Bench.operating = Some w1 /\
    trace_ w1 = trace_ Bench.operating ++ evs /\
    forallb (fun e => negb (is_DataUpdate e)) evs = true /\
    exec (HandleAhrs (Bench.clock 20105) (Bench.sample 20105 false))
         Bench.operating =
    Some (mkWorld (config_ w1) (data_ w1) (motor_enable_ w1)
                  (motor1_ w1) (motor2_ w1)
                  (trace_ Bench.operating ++ evs ++ [DataUpdate (data_ w1)])).
Proof.
  apply telemetry_once_per_sample. discriminate.
Defined.

(** C8, as the claim has it, fails: the sample that arms the stabilizer
    is handled while Initializing and sets [last_ahrs_update], here from
    0 to the tick 20005 of the call. *)
Lemma last_ahrs_update_set_on_arming :
  Data.state (data_ Bench.timing) = kInitializing /\
  Data.last_ahrs_update (data_ Bench.timing) = 0 /\
  exists w',
    exec (HandleAhrs (Bench.clock 20005) (Bench.sample 20005 false))
         Bench.timing = Some w' /\
    Data.last_ahrs_update (data_ w') = 20005.
Proof.
  split; [reflexivity |]. split; [reflexivity |].
  exists (armed_world (Bench.clock 20005) (Bench.sample 20005 false)
                      Bench.timing).
  split; [| reflexivity].
  apply HandleAhrs_initializing_arm;
    [reflexivity | reflexivity | discriminate | vm_compute; reflexivity].
Qed.

Lemma last_ahrs_update_writers_bench :
  exists (clock_ : Clock.t) data,
    OnAhrs (Bench.clock 20005) (Bench.sample 20005 false) = OnAhrs clock_ data /\
    AhrsData.error data = false /\
    ((Data.state (data_ Bench.timing) = kOperating /\
      Data.last_ahrs_update
        (data_ (armed_world (Bench.clock 20005) (Bench.sample 20005 false)
                            Bench.timing)) = AhrsData.timestamp data) \/
     (Data.state (data_ Bench.timing) = kInitializing /\
      Data.start_timestamp (data_ Bench.timing) <> 0 /\
      init_elapsed clock_ Bench.timing = true /\
      Data.state
        (data_ (armed_world (Bench.clock 20005) (Bench.sample 20005 false)
                            Bench.timing)) = kOperating /\
      Data.last_ahrs_update
        (data_ (armed_world (Bench.clock 20005) (Bench.sample 20005 false)
                            Bench.timing)) = Clock.timestamp clock_)).
Proof.
  apply (last_ahrs_update_writers
           (OnAhrs (Bench.clock 20005) (Bench.sample 20005 false))
           Bench.timing).
  - apply HandleAhrs_initializing_arm;
      [reflexivity | reflexivity | discriminate | vm_compute; reflexivity].
  - discriminate.
Defined.

Lemma torque_on_never_set_bench :
  exists w',
    calls (Bench.arming ++
           [OnAhrs (Bench.clock 20105) (Bench.sample 20105 false);
            OnMillisecond (Bench.clock 20200);
            OnMillisecond (Bench.clock 30000)]) Bench.world0 = Some w' /\
    Data.state (data_ w') = kFault /\
    Data.torque_on (data_ w') = false /\
    exists evs,
      trace_ w' = trace_ Bench.world0 ++ evs /\
      Forall (fun e => e <> EnableSet true) evs.
Proof.
  assert (Hstate :
    option_map (fun w => Data.state (data_ w))
      (calls (Bench.arming ++
              [OnAhrs (Bench.clock 20105) (Bench.sample 20105 false);
               OnMillisecond (Bench.clock 20200);
               OnMillisecond (Bench.clock 30000)]) Bench.world0)
    = Some kFault) by (vm_compute; reflexivity).
  destruct (calls (Bench.arming ++
                   [OnAhrs (Bench.clock 20105) (Bench.sample 20105 false);
                    OnMillisecond (Bench.clock 20200);
                    OnMillisecond (Bench.clock 30000)]) Bench.world0)
    as [w' |] eqn:Hrun; [| discriminate Hstate].
  exists w'. split; [reflexivity |]. split.
  - now injection Hstate.
  - exact (torque_on_never_set _ Bench.world0 w' eq_refl Hrun).
Defined.

(** C3, as the claim has it, fails where single precision runs out.
    - With a period of 2048 seconds at 8192 ticks to the second, a
      whole [2^24 = 16777216] ticks, the tick count 16777217 converts
      to the [float] 16777216 and the quotient is 2048, not above the
      period.
    - With a period of 18631 seconds at 1801 ticks to the second, a
      whole 33554431 ticks, the tick count [33554432 = 2^25] converts
      exactly, and the quotient 18631.00055... rounds to 18631.
    In both the poll one tick past the period leaves the state
    Operating. *)
Lemma watchdog_misses_late_poll :
  (Data.state (data_ Bench.long_watch) = kOperating /\
   Data.last_ahrs_update (data_ Bench.long_watch) = 20005 /\
   whole_ticks (Config.watchdog_period_s (config_ Bench.long_watch))
               (rate_float (RateInt 8192)) 16777216 = true /\
   exec (PollMillisecond (Clock.mk (20005 + 16777216 + 1) (RateInt 8192)))
        Bench.long_watch
   = Some Bench.long_watch) /\
  (Data.state (data_ (Bench.watching 18631)) = kOperating /\
   Data.last_ahrs_update (data_ (Bench.watching 18631)) = 20005 /\
   whole_ticks (Config.watchdog_period_s (config_ (Bench.watching 18631)))
               (rate_float (RateInt 1801)) 33554431 = true /\
   exec (PollMillisecond (Clock.mk (20005 + 33554431 + 1) (RateInt 1801)))
        (Bench.watching 18631)
   = Some (Bench.watching 18631)).
Proof.
  split.
  - split; [reflexivity |]. split; [reflexivity |].
    split; [vm_compute; reflexivity |].
    rewrite PollMillisecond_operating by reflexivity.
    replace (watchdog_elapsed (Clock.mk (20005 + 16777216 + 1) (RateInt 8192))
                              Bench.long_watch)
      with false by (vm_compute; reflexivity).
    reflexivity.
  - split; [reflexivity |]. split; [reflexivity |].
    split; [vm_compute; reflexivity |].
    rewrite PollMillisecond_operating by reflexivity.
    replace (watchdog_elapsed (Clock.mk (20005 + 33554431 + 1) (RateInt 1801))
                              (Bench.watching 18631))
      with false by (vm_compute; reflexivity).
    reflexivity.
Qed.

Lemma watchdog_threshold_bench :
  exec (PollMillisecond
          (Clock.mk ((4294967000 + 1250 + 1) mod uint32_modulus)
                    (RateInt 10000))) Bench.short_watch
  = Some (faulted Bench.short_watch) /\
  exec (PollMillisecond
          (Clock.mk ((4294967000 + 1250 - 1) mod uint32_modulus)
                    (RateInt 10000))) Bench.short_watch
  = Some Bench.short_watch.
Proof.
  apply (watchdog_threshold Bench.short_watch 4294967000 1250 (RateInt 10000)).
  - reflexivity.
  - reflexivity.
  - vm_compute. reflexivity.
  - vm_compute. reflexivity.
  - vm_compute. reflexivity.
  - reflexivity.
Defined.

(** ** Further properties of the stabilizer *)

Section Further.

Context {P : Platform}.

Implicit Types (w : World) (c : Call) (data : AhrsData.t).

(** The arithmetic stays folded while the control flow is followed. *)
Local Opaque F32.gt F32.of_Z F32.to_unsigned div_u32_rate div_float_rate
      sub32 Z.eqb Apply.

Lemma phase_uint16 (command phase_ : float) :
  0 <= phase command phase_ < 65536.
Proof.
  unfold phase, uint16_modulus. rewrite Z.mod_small; lia.
Qed.

Lemma phase_through_float (command phase_ : float) :
  F32.to_unsigned undef 16 (F32.of_Z (phase command phase_)) =
  phase command phase_.
Proof. apply uint16_through_float, phase_uint16. Qed.

Lemma pitch_motor_reads (pm : Motor) w w2 :
  pitch_motor w = Some (pm, w) -> config_ w2 = config_ w ->
  pitch_motor w2 = Some (pm, w2).
Proof.
  unfold pitch_motor, bind, get_config, ret. intros H ->.
  repeat match goal with
         | H : context [if ?b then _ else _] |- _ => destruct b
         end; now injection H as <-.
Qed.

Lemma yaw_motor_reads (ym : Motor) w w2 :
  yaw_motor w = Some (ym, w) -> config_ w2 = config_ w ->
  yaw_motor w2 = Some (ym, w2).
Proof.
  unfold yaw_motor, bind, get_config, ret. intros H ->.
  repeat match goal with
         | H : context [if ?b then _ else _] |- _ => destruct b
         end; now injection H as <-.
Qed.

Lemma pitch_motor_selects w : exists pm, pitch_motor w = Some (pm, w).
Proof.
  unfold pitch_motor, bind, get_config, ret.
  repeat match goal with
         | |- context [if ?b then _ else _] => destruct b
         end; eauto.
Qed.

Lemma yaw_motor_selects w : exists ym, yaw_motor w = Some (ym, w).
Proof.
  unfold yaw_motor, bind, get_config, ret.
  repeat match goal with
         | |- context [if ?b then _ else _] => destruct b
         end; eauto.
Qed.

(** The accepted sample, path by path: the world it leaves. *)
Lemma HandleAhrs_accepts (clock_ : Clock.t) data w (pm ym : Motor) :
  Data.state (data_ w) = kOperating ->
  AhrsData.error data = false ->
  pitch_motor w = Some (pm, w) ->
  yaw_motor w = Some (ym, w) ->
  exec (HandleAhrs clock_ data) w = Some (accepted_world pm ym data w).
Proof.
  intros Hs He Hpm Hym.
  unfold exec, HandleAhrs, dispatch, bind at 1 2, get_data.
  rewrite Hs. unfold DoOperating. rewrite He.
  unfold pitch_pid_Apply, yaw_pid_Apply, update_data, motor_enable_Set,
    get_data, get_config, bind, ret.
  cbn [config_ data_ motor_enable_ motor1_ motor2_ trace_].
  unfold accepted_world, accepted_data, pitch_Apply_result, yaw_Apply_result.
  cbn [Data.pitch Data.yaw Data.desired_deg Data.desired_body_rate_dps
       Data.set_last_ahrs_update Data.set_pitch Data.set_yaw].
  destruct (Apply (ChannelConfig.pid (Config.pitch (config_ w))) _ _ _ _ _ _)
    as [pitch_command pitch_state].
  cbn [config_ data_ fst snd Data.pitch Data.yaw Data.set_pitch].
  destruct (Apply (ChannelConfig.pid (Config.yaw (config_ w))) _ _ _ _ _ _)
    as [yaw_command yaw_state].
  cbn [config_ data_ motor_enable_ motor1_ motor2_ trace_ fst snd].
  match goal with
  | |- context [pitch_motor ?w1] =>
      rewrite (pitch_motor_reads pm w w1 Hpm eq_refl)
  end.
  unfold Set_floats. rewrite !phase_through_float.
  destruct pm; cbn [Motor_Set]; unfold motor1_Set, motor2_Set;
    cbn [config_ data_ motor_enable_ motor1_ motor2_ trace_];
    match goal with
    | |- context [yaw_motor ?w1] =>
        rewrite (yaw_motor_reads ym w w1 Hym eq_refl)
    end;
    rewrite ?phase_through_float;
    destruct ym; cbn [Motor_Set];
    unfold motor1_Set, motor2_Set, data_updater_, published, phases,
      Data.set_yaw, Data.set_pitch, Data.set_last_ahrs_update;
    cbn; rewrite Hs; reflexivity.
Qed.

Lemma call_exact c w w' :
  exec (call c) w = Some w' ->
  transition c w w' /\
  forall (clock_ : Clock.t) data,
    c = OnAhrs clock_ data ->
    Data.state (data_ w) = kOperating ->
    AhrsData.error data = false ->
    exists pm ym : Motor,
      pitch_motor w = Some (pm, w) /\ yaw_motor w = Some (ym, w) /\
      w' = accepted_world pm ym data w.
Proof.
  intros Hx. split; [now apply call_transition |].
  intros clock_ data -> Hs He.
  destruct (pitch_motor_selects w) as [pm Hpm].
  destruct (yaw_motor_selects w) as [ym Hym].
  exists pm, ym. split; [exact Hpm |]. split; [exact Hym |].
  cbn [call] in Hx.
  rewrite (HandleAhrs_accepts clock_ data w pm ym Hs He Hpm Hym) in Hx.
  now injection Hx.
Qed.

Lemma faulted_data_fixed w :
  Data.state (data_ w) = kFault ->
  Data.torque_on (data_ w) = false ->
  data_ (faulted w) = data_ w.
Proof.
  destruct w as [cfg d en m1 m2 tr]. destruct d. cbn. now intros -> ->.
Qed.

(** X1.  Fault is absorbing.  From a world in Fault with [torque_on]
    false and the outputs off, which is how [DoFault] leaves it, every
    sequence of calls returns and leaves [data_], the configuration and
    the outputs as they are: no sample and no poll leads out of
    Fault. *)
Theorem fault_is_absorbing (cs : list Call) w :
  Data.state (data_ w) = kFault ->
  Data.torque_on (data_ w) = false ->
  outputs_off w ->
  exists w',
    calls cs w = Some w' /\
    data_ w' = data_ w /\ config_ w' = config_ w /\ outputs_off w'.
Proof.
  revert w. induction cs as [| c rest IH]; intros w Hs Ht Hoff.
  - exists w. auto.
  - destruct (call_total c w) as (w1 & Hx & Htr); [congruence |].
    cbn [calls]. rewrite Hx.
    assert (H1 : data_ w1 = data_ w /\ config_ w1 = config_ w /\
                 outputs_off w1).
    { destruct Htr; try congruence.
      - auto.
      - split; [now apply faulted_data_fixed |].
        split; [reflexivity | repeat split]. }
    destruct H1 as (Hd & Hc & Hoff1).
    destruct (IH w1) as (w' & Hcs & Hd' & Hc' & Hoff'); try congruence.
    exists w'. repeat split; try congruence; apply Hoff'.
Qed.

(** X2.  The state changes on two edges only.  A call that changes the
    state either arms (Initializing to Operating, on an error-free
    sample with the timer started whose elapsed time exceeds the
    initialization period) or faults (Operating to Fault, on a sample
    with the error flag or on a poll that finds the last sample
    stale). *)
Theorem state_changes c w w' :
  exec (call c) w = Some w' ->
  Data.state (data_ w') <> Data.state (data_ w) ->
  (Data.state (data_ w) = kInitializing /\
   Data.state (data_ w') = kOperating /\
   exists (clock_ : Clock.t) data,
     c = OnAhrs clock_ data /\ AhrsData.error data = false /\
     Data.start_timestamp (data_ w) <> 0 /\
     init_elapsed clock_ w = true) \/
  (Data.state (data_ w) = kOperating /\
   Data.state (data_ w') = kFault /\
   ((exists (clock_ : Clock.t) data,
       c = OnAhrs clock_ data /\ AhrsData.error data = true) \/
    (exists clock_ : Clock.t,
       c = OnMillisecond clock_ /\ watchdog_elapsed clock_ w = true))).
Proof.
  intros Hx Hch. apply call_transition in Hx.
  destruct Hx; cbn in Hch; try congruence.
  - right. split; [assumption |]. split; [reflexivity |]. right. eauto.
  - right. split; [assumption |]. split; [reflexivity |]. left. eauto.
  - left. split; [assumption |]. split; [reflexivity |]. eauto 6.
Qed.

Lemma call_keeps_setpoints c w w' :
  exec (call c) w = Some w' ->
  config_ w' = config_ w /\
  Data.desired_body_rate_dps (data_ w') =
  Data.desired_body_rate_dps (data_ w) /\
  Euler.roll (Data.desired_deg (data_ w')) =
  Euler.roll (Data.desired_deg (data_ w)) /\
  (Data.state (data_ w) <> kInitializing ->
   Data.state (data_ w') <> kInitializing /\
   Data.desired_deg (data_ w') = Data.desired_deg (data_ w)).
Proof.
  intros Hx. destruct (call_exact c w w' Hx) as [Htr Hacc].
  destruct Htr;
    try (repeat split; try reflexivity; cbn; congruence).
  destruct (Hacc clock_ data eq_refl) as (pm & ym & _ & _ & ->); try assumption.
  destruct pm, ym; repeat split; cbn; congruence.
Qed.

(** X3.  The stabilizer never writes its configuration, the body rate
    setpoint or the roll setpoint; and once it has left Initializing
    it never returns there and never changes [desired_deg] again: the
    setpoint is the one locked at arming. *)
Theorem setpoints_locked (cs : list Call) w w' :
  calls cs w = Some w' ->
  config_ w' = config_ w /\
  Data.desired_body_rate_dps (data_ w') =
  Data.desired_body_rate_dps (data_ w) /\
  Euler.roll (Data.desired_deg (data_ w')) =
  Euler.roll (Data.desired_deg (data_ w)) /\
  (Data.state (data_ w) <> kInitializing ->
   Data.state (data_ w') <> kInitializing /\
   Data.desired_deg (data_ w') = Data.desired_deg (data_ w)).
Proof.
  revert w. induction cs as [| c rest IH]; intros w Hcs.
  - injection Hcs as <-. repeat split; auto.
  - cbn [calls] in Hcs.
    destruct (exec (call c) w) as [w1 |] eqn:Hx; [| discriminate].
    destruct (call_keeps_setpoints c w w1 Hx) as (Hc1 & Hr1 & Ho1 & Hs1).
    destruct (IH w1 Hcs) as (Hc & Hr & Ho & Hs).
    split; [congruence |]. split; [congruence |]. split; [congruence |].
    intros Hn. destruct (Hs1 Hn) as [Hn1 Hd1].
    destruct (Hs Hn1) as [Hn' Hd']. split; [exact Hn' | congruence].
Qed.

Lemma call_events c w w' :
  exec (call c) w = Some w' ->
  exists evs,
    trace_ w' = trace_ w ++ evs /\
    length (filter is_DataUpdate evs) = (if is_OnAhrs c then 1 else 0)%nat /\
    Forall uint16_write evs.
Proof.
  intros Hx. destruct (call_exact c w w' Hx) as [Htr Hacc].
  destruct Htr; cbn [is_OnAhrs].
  - exists []. rewrite app_nil_r. repeat split. constructor.
  - exists []. rewrite app_nil_r. repeat split. constructor.
  - eexists. split; [reflexivity |]. split; [reflexivity |].
    repeat constructor; lia.
  - eexists. split; [cbn; now rewrite <- app_assoc |].
    split; [reflexivity |]. repeat constructor; lia.
  - eexists. split; [cbn; now rewrite <- app_assoc |].
    split; [reflexivity |]. repeat constructor; lia.
  - destruct (Hacc clock_ data eq_refl) as (pm & ym & _ & _ & ->);
      try assumption.
    pose proof phase_uint16 as Hph.
    destruct pm, ym; cbn; rewrite <- !app_assoc; cbn;
      (eexists; split; [reflexivity |]; split; [reflexivity |]);
      repeat constructor;
      match goal with |- _ <= phase ?a ?b => specialize (Hph a b); lia
                    | |- phase ?a ?b <= _ => specialize (Hph a b); lia end.
  - eexists. split; [reflexivity |]. split; [reflexivity |].
    repeat constructor.
  - eexists. split; [reflexivity |]. split; [reflexivity |].
    repeat constructor.
  - eexists. split; [reflexivity |]. split; [reflexivity |].
    repeat constructor.
  - eexists. split; [reflexivity |]. split; [reflexivity |].
    repeat constructor.
Qed.

(** X4.  From any of the three states every sequence of calls returns,
    no assertion fails, and the telemetry publications it makes are as
    many as the samples it handles: one for each sample, none for a
    poll. *)
Theorem one_publication_per_sample (cs : list Call) w :
  Data.state (data_ w) <> kNumStates ->
  exists w' evs,
    calls cs w = Some w' /\
    trace_ w' = trace_ w ++ evs /\
    length (filter is_DataUpdate evs) = length (filter is_OnAhrs cs).
Proof.
  revert w. induction cs as [| c rest IH]; intros w Hn.
  - exists w, []. now rewrite app_nil_r.
  - destruct (call_total c w Hn) as (w1 & Hx & Htr).
    destruct (call_events c w w1 Hx) as (evs1 & Ht1 & Hc1 & _).
    destruct (IH w1) as (w' & evs & Hcs & Ht & Hc);
      [now apply transition_state with c w |].
    exists w', (evs1 ++ evs). cbn [calls filter]. rewrite Hx.
    split; [exact Hcs |]. split; [now rewrite Ht, Ht1, app_assoc |].
    rewrite filter_app, length_app, Hc1, Hc.
    destruct (is_OnAhrs c); reflexivity.
Qed.

(** X5.  Every motor write the stabilizer makes, in any sequence of
    calls, passes three duty cycles between 0 and 65535. *)
Theorem motor_writes_fit_uint16 (cs : list Call) w w' :
  calls cs w = Some w' ->
  exists evs, trace_ w' = trace_ w ++ evs /\ Forall uint16_write evs.
Proof.
  revert w. induction cs as [| c rest IH]; intros w Hcs.
  - injection Hcs as <-. exists []. now rewrite app_nil_r.
  - cbn [calls] in Hcs.
    destruct (exec (call c) w) as [w1 |] eqn:Hx; [| discriminate].
    destruct (call_events c w w1 Hx) as (evs1 & Ht1 & _ & Hu1).
    destruct (IH w1 Hcs) as (evs & Ht & Hu).
    exists (evs1 ++ evs). split; [now rewrite Ht, Ht1, app_assoc |].
    apply Forall_app. now split.
Qed.

(** X6.  When pitch and yaw select different channels, an accepted
    sample leaves on the pitch channel the three phases of the pitch
    command and on the yaw channel those of the yaw command, unaltered
    by their passage through [float]; the enable line follows
    [torque_on]; of [data_] only the two controller states and
    [last_ahrs_update], set to the sample's timestamp, change. *)
Theorem axes_drive_their_channels (clock_ : Clock.t) data w (pm ym : Motor) :
  Data.state (data_ w) = kOperating ->
  AhrsData.error data = false ->
  pitch_motor w = Some (pm, w) ->
  yaw_motor w = Some (ym, w) ->
  pm <> ym ->
  exists w',
    exec (HandleAhrs clock_ data) w = Some w' /\
    channel pm w' = phases (fst (pitch_Apply_result data w)) /\
    channel ym w' = phases (fst (yaw_Apply_result data w)) /\
    motor_enable_ w' = Data.torque_on (data_ w) /\
    data_ w' = accepted_data data w.
Proof.
  intros Hs He Hpm Hym Hne. exists (accepted_world pm ym data w).
  split; [now apply HandleAhrs_accepts |].
  destruct pm, ym; try congruence; repeat split.
Qed.

(** X7.  When pitch and yaw select the same channel, an accepted sample
    writes that channel twice, the pitch phases and then the yaw
    phases: the channel is left with the yaw phases and the other
    channel is not written. *)
Theorem shared_channel_keeps_yaw (clock_ : Clock.t) data w (m : Motor) :
  Data.state (data_ w) = kOperating ->
  AhrsData.error data = false ->
  pitch_motor w = Some (m, w) ->
  yaw_motor w = Some (m, w) ->
  exists w',
    exec (HandleAhrs clock_ data) w = Some w' /\
    channel m w' = phases (fst (yaw_Apply_result data w)) /\
    channel (other m) w' = channel (other m) w /\
    trace_ w' =
    trace_ w ++ [EnableSet (Data.torque_on (data_ w));
                 SetEvent m (phases (fst (pitch_Apply_result data w)));
                 SetEvent m (phases (fst (yaw_Apply_result data w)));
                 DataUpdate (data_ w')].
Proof.
  intros Hs He Hpm Hym. exists (accepted_world m m data w).
  split; [now apply HandleAhrs_accepts |].
  destruct m; repeat split; cbn; now rewrite <- !app_assoc.
Qed.

(** X8.  Tick 0 is the "not started" mark of the arming timer: an
    error-free sample handled when the clock reads 0 leaves the timer
    unstarted, so the error-free sample after it, whatever the clock
    reads then, only starts the timer and does not arm. *)
Theorem tick_zero_leaves_timer_unstarted
        (clock1 clock2 : Clock.t) (data1 data2 : AhrsData.t) w :
  Data.state (data_ w) = kInitializing ->
  Data.start_timestamp (data_ w) = 0 ->
  AhrsData.error data1 = false ->
  AhrsData.error data2 = false ->
  Clock.timestamp clock1 = 0 ->
  exists w',
    calls [OnAhrs clock1 data1; OnAhrs clock2 data2] w = Some w' /\
    Data.state (data_ w') = kInitializing /\
    Data.start_timestamp (data_ w') = Clock.timestamp clock2.
Proof.
  intros Hs Ht He1 He2 Hc. cbn [calls call].
  rewrite (HandleAhrs_initializing_start clock1 data1 w Hs He1 Ht).
  rewrite (HandleAhrs_initializing_start
             clock2 data2 (timer_set (Clock.timestamp clock1) w) Hs He2 Hc).
  eexists. split; [reflexivity |]. split; [exact Hs | reflexivity].
Qed.

End Further.

(** ** Timers *)

Section Timers.

Context {P : Platform}.

Implicit Types (w : World) (data : AhrsData.t).

Lemma sub32_offset (a b k : Z) : sub32 (add32 a k) (add32 b k) = sub32 a b.
Proof.
  unfold sub32, add32. rewrite <- Zminus_mod. f_equal. lia.
Qed.

Lemma sub32_add32 (T n : Z) :
  0 <= n < uint32_modulus -> sub32 (add32 T n) T = n.
Proof. apply sub32_after. Qed.

Lemma watchdog_elapsed_add32 w (T n : Z) (r : TickRate) :
  Data.last_ahrs_update (data_ w) = T ->
  0 <= n < uint32_modulus ->
  watchdog_elapsed (Clock.mk (add32 T n) r) w =
  F32.gt (F32.div (F32.of_Z n) (rate_float r))
         (Config.watchdog_period_s (config_ w)).
Proof. exact (watchdog_elapsed_after w T n r). Qed.

(** On the integers below [2^24] the conversion to [float] is exact and
    keeps the order. *)
Lemma of_Z_gt (p q : Z) :
  0 <= p < 2 ^ 24 -> 0 <= q < 2 ^ 24 ->
  F32.gt (F32.of_Z q) (F32.of_Z p) = (p <? q).
Proof.
  intros Hp Hq. unfold F32.gt.
  destruct (Z.eq_dec q 0) as [-> | Hq0].
  - replace (p <? 0) with false by (symmetry; apply Z.ltb_ge; lia).
    destruct (Z.eq_dec p 0) as [-> | Hp0]; [reflexivity |].
    destruct (of_Z_normal p) as (Mp & ep & -> & _); [lia | reflexivity].
  - destruct (of_Z_normal q) as (Mq & eq_ & Hofq & Heq & HMq & Hvq); [lia |].
    rewrite Hofq.
    destruct (Z.eq_dec p 0) as [-> | Hp0].
    + replace (0 <? q) with true by (symmetry; apply Z.ltb_lt; lia).
      reflexivity.
    + destruct (of_Z_normal p) as (Mp & ep & -> & Hep & HMp & Hvp); [lia |].
      assert (0 < 2 ^ (- ep) * 2 ^ (- eq_))
        by (apply Z.mul_pos_pos; apply Z.pow_pos_nonneg; lia).
      destruct (Z.ltb_spec p q) as [Hlt | Hge].
      * apply ltb_finite with (a := - eq_) (b := - ep); try lia.
        rewrite Hvp, Hvq. nia.
      * apply ltb_finite_false with (a := - eq_) (b := - ep); try lia.
        rewrite Hvp, Hvq. nia.
Qed.

(** X9.  Both timers measure tick differences modulo [2^32]: the arming
    test and the watchdog test come out the same when the clock and
    the stored timestamp are moved by the same number of ticks, around
    the wrap of the counter included. *)
Theorem timers_ignore_counter_offset
        (k now start last : Z) (r : TickRate) w :
  init_elapsed (Clock.mk (add32 now k) r)
               (with_timestamps (add32 start k) (add32 last k) w) =
  init_elapsed (Clock.mk now r) (with_timestamps start last w) /\
  watchdog_elapsed (Clock.mk (add32 now k) r)
                   (with_timestamps (add32 start k) (add32 last k) w) =
  watchdog_elapsed (Clock.mk now r) (with_timestamps start last w).
Proof.
  unfold init_elapsed, watchdog_elapsed, with_timestamps. cbn.
  now rewrite !sub32_offset.
Qed.

(** X10.  Polling inside the period and then past it.  With a valid
    positive period and a normal tick rate, polls made while the
    elapsed ticks are more than one tick short of the period, however
    many, change nothing: each of them leaves the world as it is, and so
    does the run of them.  The poll made more than one tick past the
    period then faults, so the run followed by it ends in the world
    [DoFault] leaves.  The period times the rate need not be a whole
    number of ticks. *)
Theorem watchdog_polling
        (w : World) (T late : Z) (earlies : list Z) (r : TickRate) :
  Data.state (data_ w) = kOperating ->
  Data.last_ahrs_update (data_ w) = T ->
  valid_binary F32.prec F32.emax (Config.watchdog_period_s (config_ w)) = true ->
  normal_rate (rate_float r) = true ->
  Forall (fun n => 0 <= n < 2 ^ 24 /\
                   period_at_least (Config.watchdog_period_s (config_ w))
                                   (rate_float r) (n + 1) = true) earlies ->
  0 <= late < 2 ^ 24 ->
  period_at_most (Config.watchdog_period_s (config_ w)) (rate_float r)
                 (late - 1) = true ->
  Forall (fun n => exec (PollMillisecond (Clock.mk (add32 T n) r)) w = Some w)
         earlies /\
  calls (map (fun n => OnMillisecond (Clock.mk (add32 T n) r)) earlies) w
  = Some w /\
  exec (PollMillisecond (Clock.mk (add32 T late) r)) w = Some (faulted w) /\
  calls (map (fun n => OnMillisecond (Clock.mk (add32 T n) r)) earlies ++
         [OnMillisecond (Clock.mk (add32 T late) r)]) w
  = Some (faulted w).
Proof.
  intros Hs HT HW Hr Hearly Hlate Hmost.
  assert (Hpast :
            exec (PollMillisecond (Clock.mk (add32 T late) r)) w
            = Some (faulted w)).
  { rewrite PollMillisecond_operating by exact Hs.
    rewrite (watchdog_elapsed_add32 w T late r)
      by (try exact HT; unfold uint32_modulus; lia).
    now rewrite (elapsed_above _ _ late HW Hr) by (try exact Hmost; lia). }
  assert (Hinside :
            Forall (fun n =>
                      exec (PollMillisecond (Clock.mk (add32 T n) r)) w = Some w)
                   earlies).
  { eapply Forall_impl; [| exact Hearly]. intros n [Hn Hleast].
    rewrite PollMillisecond_operating by exact Hs.
    rewrite (watchdog_elapsed_add32 w T n r)
      by (try exact HT; unfold uint32_modulus; lia).
    now rewrite (elapsed_not_above _ _ n HW Hr) by (try exact Hleast; lia). }
  split; [exact Hinside |]. clear Hearly.
  induction Hinside as [| n rest Hn _ IH]; cbn [map app calls call].
  - split; [reflexivity |]. split; [exact Hpast |]. now rewrite Hpast.
  - rewrite Hn. exact IH.
Qed.

(** X11.  A watchdog period that is a NaN or plus infinity switches the
    watchdog off: no elapsed time compares greater, and polls while
    Operating, at any clock values, change nothing. *)
Theorem unordered_period_disables_watchdog (clocks : list Clock.t) w :
  Data.state (data_ w) = kOperating ->
  Config.watchdog_period_s (config_ w) = S754_nan \/
  Config.watchdog_period_s (config_ w) = S754_infinity false ->
  calls (map OnMillisecond clocks) w = Some w.
Proof.
  intros Hs HW. induction clocks as [| clock_ rest IH]; [reflexivity |].
  cbn [map calls call]. rewrite PollMillisecond_operating by exact Hs.
  replace (watchdog_elapsed clock_ w) with false; [exact IH |].
  unfold watchdog_elapsed, F32.gt, SFltb.
  destruct HW as [-> | ->]; [reflexivity |].
  now destruct (div_float_rate _ _) as [[] | [] | | [] ? ?].
Qed.

(** X12.  With an integer tick rate the elapsed time of the arming test
    is the integer quotient of the ticks by the rate, the fraction of a
    second dropped.  For a period of a whole number [p] of seconds an
    error-free sample, the timer started, arms exactly when the ticks
    since the start are at least [(p + 1)] times the rate: with the
    default period of one second, after two seconds. *)
Theorem integer_rate_arming
        (now p : Z) (k : positive) data w :
  Data.state (data_ w) = kInitializing ->
  Data.start_timestamp (data_ w) <> 0 ->
  AhrsData.error data = false ->
  Config.initialization_period_s (config_ w) = F32.of_Z p ->
  0 <= p < 2 ^ 24 ->
  sub32 now (Data.start_timestamp (data_ w)) / Zpos k < 2 ^ 24 ->
  exists w',
    exec (HandleAhrs (Clock.mk now (RateInt k)) data) w = Some w' /\
    (Data.state (data_ w') = kOperating <->
     (p + 1) * Zpos k <= sub32 now (Data.start_timestamp (data_ w))).
Proof.
  intros Hs Ht He HP Hp Hq.
  set (d := sub32 now (Data.start_timestamp (data_ w))) in *.
  assert (Hd : 0 <= d)
    by (subst d; unfold sub32, uint32_modulus; apply Z.mod_pos_bound; lia).
  assert (Hdk : 0 <= d / Zpos k) by (apply Z.div_pos; lia).
  pose proof (Z.div_mod d (Zpos k) ltac:(lia)) as Hdm.
  pose proof (Z.mod_pos_bound d (Zpos k) ltac:(lia)) as Hmb.
  assert (Hel : init_elapsed (Clock.mk now (RateInt k)) w = (p <? d / Zpos k)).
  { unfold init_elapsed. cbn [Clock.timestamp Clock.ticks_per_second div_u32_rate].
    fold d. rewrite HP. apply of_Z_gt; lia. }
  destruct (Z.ltb_spec p (d / Zpos k)) as [Hlt | Hge].
  - exists (armed_world (Clock.mk now (RateInt k)) data w).
    split; [now apply HandleAhrs_initializing_arm |].
    split; [intros _; nia | reflexivity].
  - exists (timer_set (Data.start_timestamp (data_ w)) w).
    split; [now apply HandleAhrs_initializing_wait |].
    cbn. rewrite Hs. split; [discriminate | intros; nia].
Qed.

(** X13.  With a floating point tick rate the arming test is the
    quotient the watchdog computes.  With a valid positive period and a
    normal rate, an error-free sample more than one tick past the
    period arms, and one more than a tick short of it leaves the
    timer running. *)
Theorem float_rate_arming
        (f : float) (late early : Z) data w :
  Data.state (data_ w) = kInitializing ->
  Data.start_timestamp (data_ w) <> 0 ->
  AhrsData.error data = false ->
  valid_binary F32.prec F32.emax
               (Config.initialization_period_s (config_ w)) = true ->
  normal_rate f = true ->
  0 <= early < 2 ^ 24 -> 0 <= late < 2 ^ 24 ->
  period_at_most (Config.initialization_period_s (config_ w)) f (late - 1)
  = true ->
  period_at_least (Config.initialization_period_s (config_ w)) f (early + 1)
  = true ->
  exec (HandleAhrs
          (Clock.mk (add32 (Data.start_timestamp (data_ w)) late) (RateFloat f))
          data) w
  = Some (armed_world
            (Clock.mk (add32 (Data.start_timestamp (data_ w)) late)
                      (RateFloat f)) data w) /\
  exec (HandleAhrs
          (Clock.mk (add32 (Data.start_timestamp (data_ w)) early) (RateFloat f))
          data) w
  = Some (timer_set (Data.start_timestamp (data_ w)) w).
Proof.
  intros Hs Ht He HP Hf Hearly Hlate Hmost Hleast. split.
  - apply HandleAhrs_initializing_arm; try assumption.
    unfold init_elapsed. cbn [Clock.timestamp Clock.ticks_per_second div_u32_rate].
    rewrite sub32_add32 by (unfold uint32_modulus; lia).
    apply elapsed_above; try assumption; lia.
  - apply HandleAhrs_initializing_wait; try assumption.
    unfold init_elapsed. cbn [Clock.timestamp Clock.ticks_per_second div_u32_rate].
    rewrite sub32_add32 by (unfold uint32_modulus; lia).
    apply elapsed_not_above; try assumption; lia.
Qed.

(** X14.  Staleness counts from the sample's own timestamp.  An accepted
    sample stores its timestamp, not the clock tick at which it is
    handled; the next poll faults exactly when the ticks from that
    timestamp to the clock, over the tick rate, exceed the period. *)
Theorem staleness_counts_from_sample_timestamp
        (clock1 clock2 : Clock.t) data w :
  Data.state (data_ w) = kOperating ->
  AhrsData.error data = false ->
  exists w1,
    exec (HandleAhrs clock1 data) w = Some w1 /\
    exec (PollMillisecond clock2) w1 =
    Some (if F32.gt
               (div_float_rate
                  (F32.of_Z (sub32 (Clock.timestamp clock2)
                                   (AhrsData.timestamp data)))
                  (Clock.ticks_per_second clock2))
               (Config.watchdog_period_s (config_ w))
          then faulted w1 else w1).
Proof.
  intros Hs He.
  destruct (HandleAhrs_operating_accept clock1 data w Hs He)
    as (w1 & e1 & e2 & Hx & Hc & Hs1 & Hl & _).
  exists w1. split; [exact Hx |].
  rewrite PollMillisecond_operating by exact Hs1.
  unfold watchdog_elapsed. now rewrite Hl, Hc.
Qed.

End Timers.

(** ** The arming threshold *)

Section Arming.

Context {P : Platform}.

Implicit Types (w : World) (data : AhrsData.t).




End Arming.

(** ** The arming threshold on the test bench *)



(** ** The further properties on the test bench *)

Lemma fault_is_absorbing_bench :
  exists w',
    calls [OnAhrs (Bench.clock 40000) (Bench.sample 40000 false);
           OnMillisecond (Bench.clock 40001)] Bench.in_fault = Some w' /\
    data_ w' = data_ Bench.in_fault /\
    config_ w' = config_ Bench.in_fault /\
    outputs_off w'.
Proof.
  apply (fault_is_absorbing
           [OnAhrs (Bench.clock 40000) (Bench.sample 40000 false);
            OnMillisecond (Bench.clock 40001)] Bench.in_fault).
  - reflexivity.
  - reflexivity.
  - repeat split.
Defined.

Lemma state_changes_bench :
  (Data.state (data_ Bench.operating) = kInitializing /\
   Data.state (data_ (published (faulted Bench.operating))) = kOperating /\
   exists (clock_ : Clock.t) data,
     OnAhrs (Bench.clock 20105) (Bench.sample 20105 true) = OnAhrs clock_ data /\
     AhrsData.error data = false /\
     Data.start_timestamp (data_ Bench.operating) <> 0 /\
     init_elapsed clock_ Bench.operating = true) \/
  (Data.state (data_ Bench.operating) = kOperating /\
   Data.state (data_ (published (faulted Bench.operating))) = kFault /\
   ((exists (clock_ : Clock.t) data,
       OnAhrs (Bench.clock 20105) (Bench.sample 20105 true) = OnAhrs clock_ data /\
       AhrsData.error data = true) \/
    (exists clock_ : Clock.t,
       OnAhrs (Bench.clock 20105) (Bench.sample 20105 true) = OnMillisecond clock_ /\
       watchdog_elapsed clock_ Bench.operating = true))).
Proof.
  apply (state_changes (OnAhrs (Bench.clock 20105) (Bench.sample 20105 true))
                       Bench.operating (published (faulted Bench.operating))).
  - apply HandleAhrs_operating_error; reflexivity.
  - discriminate.
Defined.

Lemma setpoints_locked_bench :
  exists w',
    calls Bench.run Bench.world0 = Some w' /\
    config_ w' = config_ Bench.world0 /\
    Data.desired_body_rate_dps (data_ w') =
    Data.desired_body_rate_dps (data_ Bench.world0) /\
    Euler.roll (Data.desired_deg (data_ w')) =
    Euler.roll (Data.desired_deg (data_ Bench.world0)) /\
    (Data.state (data_ Bench.world0) <> kInitializing ->
     Data.state (data_ w') <> kInitializing /\
     Data.desired_deg (data_ w') = Data.desired_deg (data_ Bench.world0)).
Proof.
  assert (Hruns :
    option_map (fun w => Data.state (data_ w)) (calls Bench.run Bench.world0)
    = Some kFault) by (vm_compute; reflexivity).
  destruct (calls Bench.run Bench.world0) as [w' |] eqn:Hrun;
    [| discriminate Hruns].
  exists w'. split; [reflexivity |].
  exact (setpoints_locked Bench.run Bench.world0 w' Hrun).
Defined.

Lemma one_publication_per_sample_bench :
  exists w' evs,
    calls Bench.run Bench.world0 = Some w' /\
    trace_ w' = trace_ Bench.world0 ++ evs /\
    length (filter is_DataUpdate evs) = 3%nat.
Proof.
  apply (one_publication_per_sample Bench.run Bench.world0). discriminate.
Defined.

Lemma motor_writes_fit_uint16_bench :
  exists w',
    calls Bench.run Bench.world0 = Some w' /\
    exists evs,
      trace_ w' = trace_ Bench.world0 ++ evs /\ Forall uint16_write evs.
Proof.
  assert (Hruns :
    option_map (fun w => Data.state (data_ w)) (calls Bench.run Bench.world0)
    = Some kFault) by (vm_compute; reflexivity).
  destruct (calls Bench.run Bench.world0) as [w' |] eqn:Hrun;
    [| discriminate Hruns].
  exists w'. split; [reflexivity |].
  exact (motor_writes_fit_uint16 Bench.run Bench.world0 w' Hrun).
Defined.

Lemma axes_drive_their_channels_bench :
  exists w',
    exec (HandleAhrs (Bench.clock 20105) (Bench.sample 20105 false))
         Bench.operating = Some w' /\
    motor1_ w' =
    phases (P := Bench.platform) (fst (pitch_Apply_result (Bench.sample 20105 false) Bench.operating)) /\
    motor2_ w' =
    phases (P := Bench.platform) (fst (yaw_Apply_result (Bench.sample 20105 false) Bench.operating)) /\
    motor_enable_ w' = false /\
    data_ w' = accepted_data (Bench.sample 20105 false) Bench.operating.
Proof.
  apply (axes_drive_their_channels
           (Bench.clock 20105) (Bench.sample 20105 false) Bench.operating
           Motor1 Motor2).
  - reflexivity.
  - reflexivity.
  - reflexivity.
  - reflexivity.
  - discriminate.
Defined.

Lemma shared_channel_keeps_yaw_bench :
  exists w',
    exec (HandleAhrs (Bench.clock 20105) (Bench.sample 20105 false))
         Bench.shared = Some w' /\
    motor1_ w' =
    phases (P := Bench.platform) (fst (yaw_Apply_result (Bench.sample 20105 false) Bench.shared)) /\
    motor2_ w' = pwm_off /\
    trace_ w' =
    trace_ Bench.shared ++
    [EnableSet false;
     SetEvent Motor1
       (phases (P := Bench.platform) (fst (pitch_Apply_result (Bench.sample 20105 false) Bench.shared)));
     SetEvent Motor1
       (phases (P := Bench.platform) (fst (yaw_Apply_result (Bench.sample 20105 false) Bench.shared)));
     DataUpdate (data_ w')].
Proof.
  apply (shared_channel_keeps_yaw
           (Bench.clock 20105) (Bench.sample 20105 false) Bench.shared Motor1);
    reflexivity.
Defined.

Lemma tick_zero_leaves_timer_unstarted_bench :
  exists w',
    calls [OnAhrs (Bench.clock 0) (Bench.sample 0 false);
           OnAhrs (Bench.clock 50000) (Bench.sample 50000 false)] Bench.world0
    = Some w' /\
    Data.state (data_ w') = kInitializing /\
    Data.start_timestamp (data_ w') = 50000.
Proof.
  apply (tick_zero_leaves_timer_unstarted
           (Bench.clock 0) (Bench.clock 50000)
           (Bench.sample 0 false) (Bench.sample 50000 false) Bench.world0);
    reflexivity.
Defined.

Lemma watchdog_polling_bench :
  Forall (fun n =>
            exec (PollMillisecond (Clock.mk (add32 20005 n) (RateInt 10000)))
                 Bench.operating = Some Bench.operating)
         [0; 500; 999] /\
  calls (map (fun n => OnMillisecond (Clock.mk (add32 20005 n) (RateInt 10000)))
             [0; 500; 999])
        Bench.operating
  = Some Bench.operating /\
  exec (PollMillisecond (Clock.mk (add32 20005 1002) (RateInt 10000)))
       Bench.operating
  = Some (faulted Bench.operating) /\
  calls (map (fun n => OnMillisecond (Clock.mk (add32 20005 n) (RateInt 10000)))
             [0; 500; 999] ++
         [OnMillisecond (Clock.mk (add32 20005 1002) (RateInt 10000))])
        Bench.operating
  = Some (faulted Bench.operating).
Proof.
  apply (watchdog_polling Bench.operating 20005 1002 [0; 500; 999]
                          (RateInt 10000)).
  - reflexivity.
  - reflexivity.
  - vm_compute. reflexivity.
  - vm_compute. reflexivity.
  - repeat constructor; try lia; vm_compute; reflexivity.
  - lia.
  - vm_compute. reflexivity.
Defined.

Lemma unordered_period_disables_watchdog_bench :
  calls (map OnMillisecond [Bench.clock 30000; Bench.clock 4000000000])
        Bench.blind
  = Some Bench.blind.
Proof.
  apply (unordered_period_disables_watchdog
           [Bench.clock 30000; Bench.clock 4000000000] Bench.blind).
  - reflexivity.
  - left. reflexivity.
Defined.

Lemma integer_rate_arming_bench :
  (exists w',
     exec (HandleAhrs (Clock.mk 20004 (RateInt 10000)) (Bench.sample 20004 false))
          Bench.timing = Some w' /\
     (Data.state (data_ w') = kOperating <->
      (1 + 1) * 10000 <= sub32 20004 (Data.start_timestamp (data_ Bench.timing)))) /\
  (exists w',
     exec (HandleAhrs (Clock.mk 20005 (RateInt 10000)) (Bench.sample 20005 false))
          Bench.timing = Some w' /\
     (Data.state (data_ w') = kOperating <->
      (1 + 1) * 10000 <= sub32 20005 (Data.start_timestamp (data_ Bench.timing)))).
Proof.
  split.
  - apply (integer_rate_arming 20004 1 10000 (Bench.sample 20004 false)
                               Bench.timing).
    + reflexivity.
    + discriminate.
    + reflexivity.
    + reflexivity.
    + lia.
    + vm_compute. reflexivity.
  - apply (integer_rate_arming 20005 1 10000 (Bench.sample 20005 false)
                               Bench.timing).
    + reflexivity.
    + discriminate.
    + reflexivity.
    + reflexivity.
    + lia.
    + vm_compute. reflexivity.
Defined.

Lemma float_rate_arming_bench :
  exec (HandleAhrs
          (Clock.mk (add32 (Data.start_timestamp (data_ Bench.timing)) 10001)
                    (RateFloat (F32.of_Z 10000)))
          (Bench.sample 10006 false)) Bench.timing
  = Some (armed_world
            (Clock.mk (add32 (Data.start_timestamp (data_ Bench.timing)) 10001)
                      (RateFloat (F32.of_Z 10000)))
            (Bench.sample 10006 false) Bench.timing) /\
  exec (HandleAhrs
          (Clock.mk (add32 (Data.start_timestamp (data_ Bench.timing)) 9999)
                    (RateFloat (F32.of_Z 10000)))
          (Bench.sample 10006 false)) Bench.timing
  = Some (timer_set (Data.start_timestamp (data_ Bench.timing)) Bench.timing).
Proof.
  apply (float_rate_arming (F32.of_Z 10000) 10001 9999
                           (Bench.sample 10006 false) Bench.timing).
  - reflexivity.
  - discriminate.
  - reflexivity.
  - vm_compute. reflexivity.
  - vm_compute. reflexivity.
  - lia.
  - lia.
  - vm_compute. reflexivity.
  - vm_compute. reflexivity.
Defined.

Lemma staleness_counts_from_sample_timestamp_bench :
  exists w1,
    exec (HandleAhrs (Bench.clock 30000) (Bench.sample 20105 false))
         Bench.operating = Some w1 /\
    exec (PollMillisecond (Bench.clock 30001)) w1 =
    Some (if F32.gt
               (div_float_rate
                  (F32.of_Z (sub32 (Clock.timestamp (Bench.clock 30001))
                                   (AhrsData.timestamp (Bench.sample 20105 false))))
                  (Clock.ticks_per_second (Bench.clock 30001)))
               (Config.watchdog_period_s (config_ Bench.operating))
          then faulted w1 else w1).
Proof.
  apply (staleness_counts_from_sample_timestamp
           (Bench.clock 30000) (Bench.clock 30001) (Bench.sample 20105 false)
           Bench.operating); reflexivity.
Defined.
